(** * ProjectKRR: staged generate-and-validate pipeline around clingo

    Shallow embedding of [programs/generator2.py],
    [programs/optimized-generator.py] and [programs/benchmark.py].

    The constraint engine (clingo) and the operating system's entropy
    source are external: they are an interface ([Engine]) that every
    definition is parameterised over.  Python's module globals ([facts],
    [seed]), standard output and the engine's world are threaded through
    a small state monad. *)

From Stdlib Require Import String Ascii List ZArith Lia Bool.
From Stdlib Require Import DecimalString DecimalPos DecimalZ Sorted.
Import ListNotations.
Local Open Scope string_scope.
Local Open Scope Z_scope.

Set Implicit Arguments.

(* ===================================================================== *)
(** ** Python built-ins used by the programs *)
(* ===================================================================== *)

Module Py.

(** [str(n)] for an [int]. *)
Definition str_int (z : Z) : string := NilZero.string_of_int (Z.to_int z).

(** A numeric argument as the programs pass it: an [int], or a [float]
    literal, which is carried with its [str] rendering. *)
Inductive num : Type :=
| Int (z : Z)
| Float (repr : string).

Definition str_num (n : num) : string :=
  match n with
  | Int z => str_int z
  | Float r => r
  end.

(** [sep.join(l)]. *)
Definition join (sep : string) (l : list string) : string :=
  String.concat sep l.

(** The line feed of ["\n"]. *)
Definition newline : string := String (ascii_of_nat 10) EmptyString.

(** [s.startswith(p)]. *)
Definition startswith (s p : string) : bool := String.prefix p s.

(** [s.split(c)] for a one-character separator [c]: the empty string
    splits into one empty piece. *)
Fixpoint split (c : ascii) (s : string) : list string :=
  match s with
  | EmptyString => [EmptyString]
  | String a s' =>
      if Ascii.eqb a c then EmptyString :: split c s'
      else match split c s' with
           | [] => [String a EmptyString]
           | x :: r => String a x :: r
           end
  end.

End Py.

(* ===================================================================== *)
(** ** The Fact Filter *)
(* ===================================================================== *)

(** The comprehension of [run_solver] and [run_solver_without_pipes]:
    [[item for item in facts if any(item.startswith(f"{f}(") for f in filter)]]. *)
Definition fact_filter (filter facts : list string) : list string :=
  List.filter
    (fun item => existsb (fun f => Py.startswith item (f ++ "(")) filter)
    facts.

(** The [filter] list of [run_solver] (both generator programs). *)
Definition run_solver_filter : list string :=
  ["width"; "height"; "depth"; "block"; "pipe"; "pipe_in"; "pipe_out"].

(** The [filter] list of [run_solver_without_pipes]. *)
Definition run_solver_without_pipes_filter : list string :=
  ["width"; "height"; "depth"; "block"].

(** *** Functor names, as the specification speaks of them

    The programs never parse a fact.  The specification's "functor name"
    is read off the fact's text: what stands before the first opening
    parenthesis, or, for a fact without arguments, the text without its
    terminating dot. *)

(** The text before the first ["("], when there is one. *)
Fixpoint before_paren (s : string) : option string :=
  match s with
  | EmptyString => None
  | String a s' =>
      if Ascii.eqb a "("%char then Some EmptyString
      else option_map (String a) (before_paren s')
  end.

(** The text without a final ["."]. *)
Fixpoint strip_dot (s : string) : string :=
  match s with
  | EmptyString => EmptyString
  | String a EmptyString => if Ascii.eqb a "."%char then EmptyString else s
  | String a s' => String a (strip_dot s')
  end.

Definition functor_name (fact : string) : string :=
  match before_paren fact with
  | Some name => name
  | None => strip_dot fact
  end.

(** A fact with an argument list. *)
Definition has_args (fact : string) : bool :=
  match before_paren fact with
  | Some _ => true
  | None => false
  end.

(** A text without any opening parenthesis: every predicate name, and
    every fact of arity zero. *)
Definition no_paren (s : string) : Prop := before_paren s = None.

(** The filter in the specification's words: keep the facts whose functor
    name equals one of the listed names. *)
Definition filter_by_functor (names facts : list string) : list string :=
  List.filter
    (fun item => existsb (String.eqb (functor_name item)) names)
    facts.

(** Order-preserving sub-sequence. *)
Inductive Subseq {A : Type} : list A -> list A -> Prop :=
| Subseq_nil : Subseq [] []
| Subseq_skip x l1 l2 : Subseq l1 l2 -> Subseq l1 (x :: l2)
| Subseq_keep x l1 l2 : Subseq l1 l2 -> Subseq (x :: l1) (x :: l2).

(* ===================================================================== *)
(** ** The external collaborators *)
(* ===================================================================== *)

(** One satisfying assignment, as the [on_model] callbacks read it. *)
Record Model : Type := {
  symbols_atoms : list string;  (** [str(atom)] for [atom] in [model.symbols(atoms=True)] *)
  model_str : string            (** [str(model)] *)
}.

(** What one [clingo.Control] is given before [solve]: the argument list
    of the constructor, the program of [load], the text of the block
    added under the name [facts], and the parts handed to [ground]. *)
Record Invocation : Type := {
  ctl_arguments : list string;
  ctl_program : string;
  ctl_facts : string;
  ctl_parts : list string
}.

(** The engine and the entropy source.  [World] is whatever they depend on
    outside the program; [clingo_solve] gives the models that [solve]
    reports to its callback, in order; [secrets_randbelow] is
    [secrets.randbelow]. *)
Class Engine : Type := {
  World : Type;
  clingo_solve : Invocation -> World -> list Model * World;
  secrets_randbelow : Z -> World -> Z * World
}.

(** The arguments of one [solve_step] call. *)
Record StageSpec : Type := {
  st_program : string;
  st_step : string;
  st_rand_freq : Py.num;
  st_parallel : Z;
  st_last : bool;
  st_parameters : option (list string)
}.

(** The log kept next to the run: entering and leaving [solve_step], and
    every [solve] of the engine with the models it reported. *)
Inductive Event : Type :=
| EvCall (s : StageSpec)
| EvSolve (inv : Invocation) (models : list Model)
| EvReturn (s : StageSpec).

(* ===================================================================== *)
(** ** Program state and its monad *)
(* ===================================================================== *)

Section Runtime.
Context {E : Engine}.

(** The module globals [facts] and [seed] ([None] until the first run),
    the texts given to [print], the world, and the log. *)
Record State : Type := {
  facts : list string;
  seed : option Z;
  stdout : list string;
  world : World;
  trace : list Event
}.

Definition M (A : Type) : Type := State -> A * State.

Definition ret {A} (a : A) : M A := fun st => (a, st).

Definition bind {A B} (m : M A) (k : A -> M B) : M B :=
  fun st => let (a, st') := m st in k a st'.

Definition exec {A} (m : M A) (st : State) : State := snd (m st).

Definition get_facts : M (list string) := fun st => (facts st, st).

Definition get_seed : M (option Z) := fun st => (seed st, st).

Definition set_facts (l : list string) : M unit := fun st =>
  (tt, {| facts := l; seed := seed st; stdout := stdout st;
          world := world st; trace := trace st |}).

Definition set_seed (s : option Z) : M unit := fun st =>
  (tt, {| facts := facts st; seed := s; stdout := stdout st;
          world := world st; trace := trace st |}).

(** [print(text)]. *)
Definition print (text : string) : M unit := fun st =>
  (tt, {| facts := facts st; seed := seed st; stdout := stdout st ++ [text];
          world := world st; trace := trace st |}).

(** One more entry in the log.  The log is bookkeeping of the model: the
    source has no counterpart of the [log] steps. *)
Definition log (ev : Event) : M unit := fun st =>
  (tt, {| facts := facts st; seed := seed st; stdout := stdout st;
          world := world st; trace := trace st ++ [ev] |}).

(** A step of the world: the engine or the entropy source. *)
Definition on_world {A} (f : World -> A * World) : M A := fun st =>
  let (a, w) := f (world st) in
  (a, {| facts := facts st; seed := seed st; stdout := stdout st;
         world := w; trace := trace st |}).

End Runtime.

Declare Scope py_scope.
Delimit Scope py_scope with py.
Notation "x <- m ;; k" := (bind m (fun x => k))
  (at level 61, m at next level, right associativity) : py_scope.
Notation "m ;; k" := (bind m (fun _ => k))
  (at level 61, right associativity) : py_scope.

Section Shared.
Context {E : Engine}.
Local Open Scope py_scope.

(** [for x in l: body(x)]. *)
Fixpoint for_each {A} (body : A -> M unit) (l : list A) : M unit :=
  match l with
  | [] => ret tt
  | x :: l' => body x ;; for_each body l'
  end.

(** [str(seed)]. *)
Definition str_seed (s : option Z) : string :=
  match s with
  | None => "None"
  | Some z => Py.str_int z
  end.

(** The facts that [collect_model] appends for one model. *)
Definition model_facts (model : Model) : list string :=
  map (fun atom => atom ++ ".") (symbols_atoms model).

(** [collect_model], the same in both generator programs:
    [facts.extend([str(atom) + "." for atom in model.symbols(atoms=True)])]. *)
Definition collect_model (model : Model) : M unit :=
  fs <- get_facts ;;
  set_facts (fs ++ model_facts model).

(** [ctl.solve(on_model=callback)], logged. *)
Definition ctl_solve (ctl : Invocation) (on_model : Model -> M unit) : M unit :=
  models <- on_world (clingo_solve ctl) ;;
  log (EvSolve ctl models) ;;
  for_each on_model models.

(** [solve_step], whose text is the same in both generator programs; the
    [print_model] it names is the one of the program it stands in.  The
    function has no [return]: its value is [None], here [tt]. *)
Definition solve_step_with (print_model : Model -> M unit)
    (program step : string) (rand_freq : Py.num) (parallel : Z)
    (last : bool) (parameters : option (list string)) : M unit :=
  let spec := {| st_program := program; st_step := step;
                 st_rand_freq := rand_freq; st_parallel := parallel;
                 st_last := last; st_parameters := parameters |} in
  log (EvCall spec) ;;
  let parameters := match parameters with
                    | None => []
                    | Some p => p
                    end in
  sd <- get_seed ;;
  fs <- get_facts ;;
  let ctl := {| ctl_arguments :=
                  ["--rand-freq=" ++ Py.str_num rand_freq;
                   "-t " ++ Py.str_int parallel;
                   "--seed=" ++ str_seed sd] ++ parameters;
                ctl_program := program;
                ctl_facts := Py.join Py.newline fs;
                ctl_parts := ["facts"; step] |} in
  (if last then ctl_solve ctl print_model
   else ctl_solve ctl collect_model) ;;
  log (EvReturn spec).

(** The body shared by [run_solver] and [run_solver_without_pipes]. *)
Definition validate_with (print_model : Model -> M unit)
    (program : string) (filter : list string) (print : bool) : M unit :=
  fs <- get_facts ;;
  let filtered := fact_filter filter fs in
  let ctl := {| ctl_arguments := ["-t 11"];
                ctl_program := program;
                ctl_facts := Py.join Py.newline filtered;
                ctl_parts := ["facts"; "base"] |} in
  if print then ctl_solve ctl print_model
  else ctl_solve ctl (fun _ => ret tt).

End Shared.


(* ===================================================================== *)
(** ** [programs/generator2.py] *)
(* ===================================================================== *)

Module Generator2.
Section Program.
Context {E : Engine}.
Local Open Scope py_scope.

(** [print_model]: every piece of [str(model)] split at the blanks gets a
    dot; the pieces are printed one per line. *)
Definition print_model (model : Model) : M unit :=
  let model_str :=
    map (fun atom => atom ++ ".") (Py.split " "%char (model_str model)) in
  print (Py.join Py.newline model_str).

(** The text that [print_model] prints for a model. *)
Definition render (model : Model) : string :=
  Py.join Py.newline
    (map (fun atom => atom ++ ".") (Py.split " "%char (model_str model))).

Definition solve_step := solve_step_with print_model.

Definition program : string := "generator2-programs.lp".

(** The parameters of the first stage:
    [["-c h=" + str(height), "-c w=" + str(width), "-c d=" + str(depth)]]. *)
Definition box (height width depth : Z) : list string :=
  ["-c h=" ++ Py.str_int height; "-c w=" ++ Py.str_int width;
   "-c d=" ++ Py.str_int depth].

Definition run_generator (height width depth : Z) (print : bool) : M unit :=
  set_facts [] ;;
  s <- on_world (secrets_randbelow (2 ^ 31)) ;;
  set_seed (Some s) ;;
  solve_step program "init" (Py.Int 0) 1 false (Some (box height width depth)) ;;
  solve_step program "block_size_gen" (Py.Int 1) 1 false None ;;
  solve_step program "block_gen" (Py.Int 1) 11 false None ;;
  solve_step program "pipe_gen" (Py.Int 1) 11 false None ;;
  solve_step program "rotation" (Py.Int 1) 11 print None.

Definition run_solver (print : bool) : M unit :=
  validate_with print_model "solver.lp" run_solver_filter print.

(** [run_generator] up to its last [solve_step] call, and that call. *)
Definition before_rotation (height width depth : Z) : M unit :=
  set_facts [] ;;
  s <- on_world (secrets_randbelow (2 ^ 31)) ;;
  set_seed (Some s) ;;
  solve_step program "init" (Py.Int 0) 1 false (Some (box height width depth)) ;;
  solve_step program "block_size_gen" (Py.Int 1) 1 false None ;;
  solve_step program "block_gen" (Py.Int 1) 11 false None ;;
  solve_step program "pipe_gen" (Py.Int 1) 11 false None.

Definition rotation (print : bool) : M unit :=
  solve_step program "rotation" (Py.Int 1) 11 print None.

(** The arguments of that last call. *)
Definition rotation_spec (print : bool) : StageSpec :=
  {| st_program := program; st_step := "rotation"; st_rand_freq := Py.Int 1;
     st_parallel := 11; st_last := print; st_parameters := None |}.

(** The calls of [run_generator], as a list of stage specifications. *)
Definition stages (height width depth : Z) (print : bool) : list StageSpec :=
  [ {| st_program := program; st_step := "init"; st_rand_freq := Py.Int 0;
       st_parallel := 1; st_last := false;
       st_parameters := Some (box height width depth) |};
    {| st_program := program; st_step := "block_size_gen";
       st_rand_freq := Py.Int 1; st_parallel := 1; st_last := false;
       st_parameters := None |};
    {| st_program := program; st_step := "block_gen";
       st_rand_freq := Py.Int 1; st_parallel := 11; st_last := false;
       st_parameters := None |};
    {| st_program := program; st_step := "pipe_gen";
       st_rand_freq := Py.Int 1; st_parallel := 11; st_last := false;
       st_parameters := None |};
    {| st_program := program; st_step := "rotation";
       st_rand_freq := Py.Int 1; st_parallel := 11; st_last := print;
       st_parameters := None |} ].

End Program.
End Generator2.

(* ===================================================================== *)
(** ** [programs/optimized-generator.py] *)
(* ===================================================================== *)

Module OptimizedGenerator.
Section Program.
Context {E : Engine}.
Local Open Scope py_scope.

Definition PATH : string := "./".

(** [print_model]: [str(model)] split at the blanks and joined with
    blanks again, printed on one line. *)
Definition print_model (model : Model) : M unit :=
  let model_str := map (fun atom => atom) (Py.split " "%char (model_str model)) in
  print (Py.join " " model_str).

(** The text that [print_model] prints for a model. *)
Definition render (model : Model) : string :=
  Py.join " " (map (fun atom => atom) (Py.split " "%char (model_str model))).

Definition solve_step := solve_step_with print_model.

Definition program : string := PATH ++ "optimized-generator.lp".

Definition box (height width depth : Z) : list string :=
  ["-c h=" ++ Py.str_int height; "-c w=" ++ Py.str_int width;
   "-c d=" ++ Py.str_int depth].

Definition run_generator (height width depth : Z) (print : bool) : M unit :=
  set_facts [] ;;
  s <- on_world (secrets_randbelow (2 ^ 31)) ;;
  set_seed (Some s) ;;
  solve_step program "block_size_gen" (Py.Int 1) 1 false
    (Some (box height width depth)) ;;
  solve_step program "block_gen" (Py.Float "0.5") 11 false None ;;
  solve_step program "pipe_gen" (Py.Int 1) 11 false None ;;
  solve_step program "rotation" (Py.Int 1) 11 print None.

Definition run_solver (print : bool) : M unit :=
  validate_with print_model (PATH ++ "solver.lp") run_solver_filter print.

Definition run_solver_without_pipes (print : bool) : M unit :=
  validate_with print_model (PATH ++ "solver-without-pipes.lp")
    run_solver_without_pipes_filter print.

(** The calls of [run_generator], as a list of stage specifications. *)
Definition stages (height width depth : Z) (print : bool) : list StageSpec :=
  [ {| st_program := program; st_step := "block_size_gen";
       st_rand_freq := Py.Int 1; st_parallel := 1; st_last := false;
       st_parameters := Some (box height width depth) |};
    {| st_program := program; st_step := "block_gen";
       st_rand_freq := Py.Float "0.5"; st_parallel := 11; st_last := false;
       st_parameters := None |};
    {| st_program := program; st_step := "pipe_gen";
       st_rand_freq := Py.Int 1; st_parallel := 11; st_last := false;
       st_parameters := None |};
    {| st_program := program; st_step := "rotation";
       st_rand_freq := Py.Int 1; st_parallel := 11; st_last := print;
       st_parameters := None |} ].

End Program.
End OptimizedGenerator.

(* ===================================================================== *)
(** ** The Stage Sequencer in the specification's words *)
(* ===================================================================== *)

Section Sequencer.
Context {E : Engine}.
Local Open Scope py_scope.

(** One Solve Invoker call for one Stage Spec. *)
Definition run_stage (print_model : Model -> M unit) (s : StageSpec) : M unit :=
  solve_step_with print_model (st_program s) (st_step s) (st_rand_freq s)
    (st_parallel s) (st_last s) (st_parameters s).

(** The Stage Specs of a list, executed in list order. *)
Definition run_stages (print_model : Model -> M unit)
    (l : list StageSpec) : M unit :=
  for_each (run_stage print_model) l.

(** What a run does before its first stage: the Fact Store is emptied and
    the seed is drawn. *)
Definition start_run : M unit :=
  set_facts [] ;;
  s <- on_world (secrets_randbelow (2 ^ 31)) ;;
  set_seed (Some s).

(** The log entries of one Solve Invoker call that reported [models] for
    the invocation [inv]. *)
Definition stage_events (s : StageSpec) (inv : Invocation)
    (models : list Model) : list Event :=
  [EvCall s; EvSolve inv models; EvReturn s].

(** The facts that one log entry stands for in the Fact Store: those of
    the models of a [solve] whose callback was [collect_model].  [merging]
    tells whether the enclosing call is one ([last] false). *)
Fixpoint merged_facts (merging : bool) (evs : list Event) : list string :=
  match evs with
  | [] => []
  | EvCall s :: evs' => merged_facts (negb (st_last s)) evs'
  | EvSolve _ models :: evs' =>
      (if merging then flat_map model_facts models else [])
        ++ merged_facts merging evs'
  | EvReturn _ :: evs' => merged_facts false evs'
  end.

(** The [clingo.Control] that [solve_step] sets up for a Stage Spec in a
    state. *)
Definition stage_invocation (s : StageSpec) (st : State) : Invocation :=
  {| ctl_arguments :=
       ["--rand-freq=" ++ Py.str_num (st_rand_freq s);
        "-t " ++ Py.str_int (st_parallel s);
        "--seed=" ++ str_seed (seed st)]
       ++ match st_parameters s with
          | None => []
          | Some p => p
          end;
     ctl_program := st_program s;
     ctl_facts := Py.join Py.newline (facts st);
     ctl_parts := ["facts"; st_step s] |}.

(** The models that the engine reports for it. *)
Definition stage_models (s : StageSpec) (st : State) : list Model :=
  fst (clingo_solve (stage_invocation s st) (world st)).

(** The state in which a Solve Invoker call leaves the program, when the
    callback of a terminal stage prints [render model]. *)
Definition after_stage (render : Model -> string) (s : StageSpec)
    (st : State) : State :=
  let inv := stage_invocation s st in
  let models := stage_models s st in
  {| facts := if st_last s then facts st
              else facts st ++ flat_map model_facts models;
     seed := seed st;
     stdout := if st_last s then stdout st ++ map render models
               else stdout st;
     world := snd (clingo_solve inv (world st));
     trace := trace st ++ stage_events s inv models |}.

(** The state after a list of Stage Specs. *)
Definition after_stages (render : Model -> string) (l : list StageSpec)
    (st : State) : State :=
  fold_left (fun st s => after_stage render s st) l st.

(** The log entries of a list of Stage Specs run from a state. *)
Fixpoint run_events (render : Model -> string) (l : list StageSpec)
    (st : State) : list Event :=
  match l with
  | [] => []
  | s :: l' =>
      stage_events s (stage_invocation s st) (stage_models s st)
        ++ run_events render l' (after_stage render s st)
  end.

(** What the caller of a Solve Invoker call has in hand afterwards: the
    returned value, the Fact Store and the printed texts. *)
Definition observe (r : unit * State) : unit * list string * list string :=
  (fst r, facts (snd r), stdout (snd r)).

(** A log without a successful solve: no [solve] in it reported a model. *)
Definition no_model_reported (evs : list Event) : Prop :=
  Forall (fun ev => match ev with
                    | EvSolve _ models => models = []
                    | _ => True
                    end) evs.

(** The invocations of the engine in a log, in order. *)
Definition invocations (evs : list Event) : list Invocation :=
  flat_map (fun ev => match ev with
                      | EvSolve inv _ => [inv]
                      | _ => []
                      end) evs.

End Sequencer.

(** A log in which every Stage Spec of a list has one call, in list order,
    and every call has returned before the next one begins. *)
Inductive Sequenced : list StageSpec -> list Event -> Prop :=
| Sequenced_nil : Sequenced [] []
| Sequenced_cons s inv models l evs :
    Sequenced l evs ->
    Sequenced (s :: l) (EvCall s :: EvSolve inv models :: EvReturn s :: evs).

(* ===================================================================== *)
(** ** Stub engines *)
(* ===================================================================== *)

Module Stub.

(** The entropy source of the stubs: a counter reduced below the bound. *)
Definition counter_randbelow (n : Z) (w : Z) : Z * Z := (w mod n, w + 1).

(** The ground part that an invocation names after [facts]. *)
Definition part (inv : Invocation) : string := nth 1 (ctl_parts inv) "".

(** Every solve reports one model with one atom, named after the part. *)
Definition one_fact : Engine :=
  {| World := Z;
     clingo_solve := fun inv w =>
       ([{| symbols_atoms := ["done(" ++ part inv ++ ")"];
            model_str := "done(" ++ part inv ++ ")" |}], w);
     secrets_randbelow := counter_randbelow |}.

(** Every search is exhausted without a model. *)
Definition no_model : Engine :=
  {| World := Z;
     clingo_solve := fun _ w => ([], w);
     secrets_randbelow := counter_randbelow |}.

(** Every solve reports one model without atoms. *)
Definition empty_model : Engine :=
  {| World := Z;
     clingo_solve := fun _ w =>
       ([{| symbols_atoms := []; model_str := "" |}], w);
     secrets_randbelow := counter_randbelow |}.

(** The state of a freshly imported generator module. *)
Definition fresh (E : Engine) (w : @World E) : @State E :=
  {| facts := []; seed := None; stdout := []; world := w; trace := [] |}.

End Stub.

(* ===================================================================== *)
(** ** [programs/benchmark.py] *)
(* ===================================================================== *)

Module Benchmark.

(** How the generator [progressive_triples] ends: its [while] condition
    fails, its [break] is taken, or its last branch raises.  [OutOfFuel]
    belongs to the model only. *)
Inductive Stop : Type :=
| Exhausted
| Capped
| AssertionError
| OutOfFuel.

Definition Triple : Type := (Z * Z * Z)%type.

(** The [while] loop; every iteration yields [(h, w, d)]. *)
Fixpoint progressive_loop (fuel : nat) (max_dim : Z) (steps : option Z)
    (h w d count : Z) : list Triple * Stop :=
  match fuel with
  | O => ([], OutOfFuel)
  | S fuel' =>
      if (h <=? max_dim) && (w <=? max_dim) && (d <=? max_dim) then
        let count := count + 1 in
        let yield (rest : list Triple * Stop) := ((h, w, d) :: fst rest, snd rest) in
        if match steps with
           | Some n => n <=? count
           | None => false
           end
        then yield ([], Capped)
        else if (h =? w) && (w =? d) then
          yield (progressive_loop fuel' max_dim steps h w (d + 1) count)
        else if (w =? d) && (h <? w) then
          yield (progressive_loop fuel' max_dim steps (h + 1) w d count)
        else if (h =? w) && (w <? d) then
          yield (progressive_loop fuel' max_dim steps h (w + 1) d count)
        else yield ([], AssertionError)
      else ([], Exhausted)
  end.

(** The sum of the dimensions grows by one per iteration and the loop
    ends once a dimension exceeds [max_dim]: this many iterations are
    enough from [h = w = d = start_dim]. *)
Definition enough (max_dim start_dim : Z) : nat :=
  S (Z.to_nat (3 * (max_dim - start_dim) + 1)).

Definition progressive_triples (max_dim : Z) (steps : option Z)
    (start_dim : Z) : list Triple * Stop :=
  progressive_loop (enough max_dim start_dim) max_dim steps
    start_dim start_dim start_dim 0.

(** A value handed to [csv.writer.writerow]. *)
Inductive Cell : Type :=
| CInt (z : Z)
| CStr (s : string).

Definition Row : Type := list Cell.

(** The header written by [init_csv]. *)
Definition header : list string :=
  ["height"; "width"; "depth"; "run"; "seconds"; "size"].

(** [append_csv]: one more row at the end of the file.  [seconds] is a
    float; it comes here as its rendering [f"{seconds:.6f}"]. *)
Definition append_csv (file : list Row) (h w d run_idx : Z)
    (seconds : string) : list Row :=
  file ++ [[CInt h; CInt w; CInt d; CInt run_idx; CStr seconds; CInt (h * w * d)]].

(** [range(1, repeats + 1)]. *)
Definition runs (repeats : Z) : list Z :=
  map Z.of_nat (seq 1 (Z.to_nat repeats)).

(** The rows that the [append_csv(args.outcsv, ...)] call in the two loops
    of [main] appends; [secs] stands for the measured durations.  The
    second call, which [--solve] adds for [bench_results_solver.csv], is
    in [BenchmarkMain.main_files]. *)
Definition record_sweep (secs : Triple -> Z -> string) (file : list Row)
    (triples : list Triple) (repeats : Z) : list Row :=
  fold_left
    (fun file t =>
       let '(h, w, d) := t in
       fold_left (fun file run_idx => append_csv file h w d run_idx (secs t run_idx))
                 (runs repeats) file)
    triples file.

(** The position of a column in the header. *)
Fixpoint position (name : string) (names : list string) : option nat :=
  match names with
  | [] => None
  | x :: names' =>
      if String.eqb x name then Some O
      else option_map S (position name names')
  end.

(** The cell of a row under a column of the header. *)
Definition column (name : string) (row : Row) : option Cell :=
  match position name header with
  | Some i => nth_error row i
  | None => None
  end.

(** The problem size of a triple. *)
Definition size (t : Triple) : Z := let '(h, w, d) := t in h * w * d.

Definition ordered (t : Triple) : Prop := let '(h, w, d) := t in h <= w <= d.

(** A row whose [size] cell is the product of its three dimension cells. *)
Definition well_sized (row : Row) : Prop :=
  exists h w d,
    column "height" row = Some (CInt h)
    /\ column "width" row = Some (CInt w)
    /\ column "depth" row = Some (CInt d)
    /\ column "size" row = Some (CInt (h * w * d)).

(** The number in the [size] cell of a row. *)
Definition row_size (row : Row) : Z :=
  match column "size" row with
  | Some (CInt z) => z
  | _ => 0
  end.

(** The row that [append_csv] writes. *)
Definition csv_row (h w d run_idx : Z) (seconds : string) : Row :=
  [CInt h; CInt w; CInt d; CInt run_idx; CStr seconds; CInt (h * w * d)].

(** The states that the loop runs through from three equal dimensions:
    the smallest dimension is bumped, the order is kept. *)
Definition staircase (h w d : Z) : Prop :=
  (h = w /\ w = d) \/ (h = w /\ d = w + 1) \/ (w = d /\ w = h + 1).

End Benchmark.

(* ===================================================================== *)
(** ** The scripts and the files of the benchmark *)
(* ===================================================================== *)

(** The [if __name__ == "__main__":] block of [programs/generator2.py]. *)
Module Generator2Main.
Section Script.
Context {E : Engine}.
Local Open Scope py_scope.

Definition main : M unit :=
  Generator2.run_generator 3 3 3 false ;;
  print "Generator finished" ;;
  Generator2.run_solver false.

End Script.
End Generator2Main.

(** The [if __name__ == "__main__":] block of
    [programs/optimized-generator.py]; [args] is what [parse_args]
    returned. *)
Module OptimizedGeneratorMain.
Section Script.
Context {E : Engine}.
Local Open Scope py_scope.

Record Namespace : Type := {
  args_height : Z;
  args_width : Z;
  args_depth : Z
}.

Definition main (args : Namespace) : M unit :=
  let height := args_height args in
  let width := args_width args in
  let depth := args_depth args in
  OptimizedGenerator.run_generator height width depth false ;;
  OptimizedGenerator.run_solver true.

End Script.
End OptimizedGeneratorMain.

(** [init_csv] and the files of [programs/benchmark.py].  A path is
    [None] when nothing exists there, else the rows of the file. *)
Module BenchmarkCsv.
Import Benchmark.

Definition Path : Type := option (list Row).

(** The row that [init_csv] writes. *)
Definition header_row : Row := map CStr header.

(** [init_csv]: the header is written when the path does not exist. *)
Definition init_csv (path : Path) : Path :=
  match path with
  | None => Some [header_row]
  | Some _ => path
  end.

(** The rows of a file opened with mode ["a"], which creates it. *)
Definition opened (path : Path) : list Row :=
  match path with
  | None => []
  | Some rows => rows
  end.

(** What [main] does to [args.outcsv] when a program or [--genpy] is
    given: [init_csv], then the rows of the sweep that the
    [append_csv(args.outcsv, ...)] call appends; the file is taken apart
    from [bench_results_solver.csv] (see [BenchmarkMain.main_files] for
    both calls and one file). *)
Definition main_outcsv (secs : Triple -> Z -> string) (path : Path)
    (triples : list Triple) (repeats : Z) : Path :=
  Some (record_sweep secs (opened (init_csv path)) triples repeats).

(** The cell of a row under [run]. *)
Definition run_of (row : Row) : option Cell := column "run" row.

End BenchmarkCsv.

(* ===================================================================== *)
(** ** Vocabulary of the further properties *)
(* ===================================================================== *)

(** The number of occurrences of a character in a text. *)
Fixpoint count_char (c : ascii) (s : string) : nat :=
  match s with
  | EmptyString => O
  | String a s' => (if Ascii.eqb a c then 1 else 0) + count_char c s'
  end.

(** A fact as [collect_model] builds it: some text and a final dot. *)
Definition dotted (fact : string) : Prop := exists atom, fact = atom ++ ".".

(** Two states that a run cannot tell apart once it has started: the
    same world; the Fact Store, the seed, the output and the log may
    differ. *)
Definition same_world {E : Engine} (st1 st2 : State) : Prop :=
  world st1 = world st2.

(** The step of the sweep that the head of [programs/benchmark.py] tells
    of: one dimension that has the smallest value, [h], is bumped by one
    and the order is kept. *)
Definition bumped (t t' : Benchmark.Triple) : Prop :=
  let '(h, w, d) := t in
  (h = w /\ w = d /\ t' = (h, w, d + 1))
  \/ (w = d /\ w = h + 1 /\ t' = (h + 1, w, d))
  \/ (h = w /\ d = w + 1 /\ t' = (h, w + 1, d)).

(** A triple on the staircase, with every dimension from [lo] to [hi]. *)
Definition on_staircase (lo hi : Z) (t : Benchmark.Triple) : Prop :=
  let '(h, w, d) := t in
  Benchmark.staircase h w d /\ lo <= h /\ d <= hi.

(** The models handed to [collect_model] in a log: those of the solves
    inside a call with [last] false.  [merging] tells whether the
    enclosing call is one. *)
Fixpoint merged_models (merging : bool) (evs : list Event) : list Model :=
  match evs with
  | [] => []
  | EvCall s :: evs' => merged_models (negb (st_last s)) evs'
  | EvSolve _ models :: evs' =>
      (if merging then models else []) ++ merged_models merging evs'
  | EvReturn _ :: evs' => merged_models false evs'
  end.

(** The text of the texts of a list of atoms, each with the dot that ends
    a fact. *)
Definition atoms_with_dot (models : list Model) : list string :=
  flat_map (fun m => map (fun atom => atom ++ ".") (symbols_atoms m)) models.

(** Reading an engine argument back: the integer written in decimal, and
    the seed of a [--seed=] argument. *)
Definition int_of_str (s : string) : option Z :=
  option_map Z.of_int (NilZero.int_of_string s).

Fixpoint strip_prefix (p s : string) : option string :=
  match p with
  | EmptyString => Some s
  | String a p' =>
      match s with
      | EmptyString => None
      | String b s' => if Ascii.eqb a b then strip_prefix p' s' else None
      end
  end.

Definition seed_of_argument (arg : string) : option Z :=
  match strip_prefix "--seed=" arg with
  | Some digits => int_of_str digits
  | None => None
  end.

(** A state in which a run has started: the Fact Store is empty and the
    seed is drawn. *)
Definition started (E : Engine) (w : @World E) : @State E :=
  exec start_run (Stub.fresh E w).

(* ===================================================================== *)
(** ** The files of [main] in [programs/benchmark.py] *)
(* ===================================================================== *)

Module BenchmarkMain.
Import Benchmark BenchmarkCsv.

(** The files by path; a path stands for the file that it names, and two
    paths name one file when they are the same text. *)
Definition Files : Type := string -> Path.

Definition write (fs : Files) (path : string) (content : Path) : Files :=
  fun p => if String.eqb p path then content else fs p.

(** [init_csv(path)] and [append_csv(path, ...)] on the files. *)
Definition init_csv_at (fs : Files) (path : string) : Files :=
  write fs path (init_csv (fs path)).

Definition append_csv_at (fs : Files) (path : string) (h w d run_idx : Z)
    (seconds : string) : Files :=
  write fs path (Some (append_csv (opened (fs path)) h w d run_idx seconds)).

(** The arguments that [main] reads from [parse_args]. *)
Record Args : Type := {
  args_program : option string;
  args_max_dim : Z;
  args_start_dim : Z;
  args_steps : option Z;
  args_repeats : Z;
  args_outcsv : string;
  args_genpy : bool;
  args_solve : bool
}.

Definition solver_outcsv : string := "bench_results_solver.csv".

(** The body of the inner loop, as far as the files go: the row of the
    generation, and with [--solve] the row of the validation.  [secs] and
    [solver_secs] stand for the measured durations. *)
Definition record_run (secs solver_secs : Triple -> Z -> string)
    (args : Args) (fs : Files) (t : Triple) (run_idx : Z) : Files :=
  let '(h, w, d) := t in
  let fs := append_csv_at fs (args_outcsv args) h w d run_idx (secs t run_idx) in
  if args_solve args
  then append_csv_at fs solver_outcsv h w d run_idx (solver_secs t run_idx)
  else fs.

(** [args.program is not None or args.genpy]. *)
Definition benchmarks (args : Args) : bool :=
  match args_program args with
  | Some _ => true
  | None => false
  end || args_genpy args.

(** [main] up to [aggregate], as far as the files go. *)
Definition main_files (secs solver_secs : Triple -> Z -> string)
    (args : Args) (fs : Files) : Files :=
  let fs := init_csv_at fs (args_outcsv args) in
  let fs := init_csv_at fs solver_outcsv in
  if benchmarks args then
    let triples := fst (progressive_triples (args_max_dim args)
                          (args_steps args) (args_start_dim args)) in
    fold_left
      (fun fs t =>
         fold_left (fun fs run_idx => record_run secs solver_secs args fs t run_idx)
                   (runs (args_repeats args)) fs)
      triples fs
  else fs.

(** The rows that one run puts into the file at a path. *)
Definition rows_of_run (secs solver_secs : Triple -> Z -> string)
    (args : Args) (p : string) (t : Triple) (run_idx : Z) : list Row :=
  let '(h, w, d) := t in
  (if String.eqb p (args_outcsv args)
   then [csv_row h w d run_idx (secs t run_idx)] else [])
  ++ (if args_solve args && String.eqb p solver_outcsv
      then [csv_row h w d run_idx (solver_secs t run_idx)] else []).

(** How many rows one run puts into the file at a path: one when the path
    is [args.outcsv], and one more when [--solve] is set and the path is
    the solver's file. *)
Definition rows_per_run (args : Args) (p : string) : nat :=
  (if String.eqb p (args_outcsv args) then 1 else 0)
  + (if args_solve args && String.eqb p solver_outcsv then 1 else 0).

End BenchmarkMain.

(* ===================================================================== *)
(** * Properties *)
(* ===================================================================== *)

(** ** The programs on small inputs *)

Example split_at_blanks :
  Py.split " " "block(1,1,1) pipe(1,2)" = ["block(1,1,1)"; "pipe(1,2)"].
Proof. reflexivity. Qed.

Example split_empty_text : Py.split " " "" = [""].
Proof. reflexivity. Qed.

Example str_int_largest_seed : Py.str_int (2 ^ 31 - 1) = "2147483647".
Proof. reflexivity. Qed.

Example filter_blocks_and_pipes :
  fact_filter ["block"; "pipe"]
    ["block(1,1,1)."; "pipe(1,2)."; "color(1,red)."]
  = ["block(1,1,1)."; "pipe(1,2)."].
Proof. reflexivity. Qed.

Example filter_pipe_is_not_pipe_in :
  fact_filter ["pipe"] ["pipe_in(1)."; "pipe(1,2)."] = ["pipe(1,2)."].
Proof. reflexivity. Qed.

Example sweep_up_to_three :
  Benchmark.progressive_triples 3 None 2
  = ([(2, 2, 2); (2, 2, 3); (2, 3, 3); (3, 3, 3)], Benchmark.Exhausted).
Proof. reflexivity. Qed.

Example sweep_of_two_steps :
  Benchmark.progressive_triples 9 (Some 2) 2
  = ([(2, 2, 2); (2, 2, 3)], Benchmark.Capped).
Proof. reflexivity. Qed.

Example sweep_above_the_bound :
  Benchmark.progressive_triples 1 None 2 = ([], Benchmark.Exhausted).
Proof. reflexivity. Qed.

Example run_with_print :
  let st := exec (@Generator2.run_generator Stub.one_fact 2 2 2 true)
              (Stub.fresh Stub.one_fact 5) in
  facts st = ["done(init)."; "done(block_size_gen)."; "done(block_gen).";
              "done(pipe_gen)."]
  /\ stdout st = ["done(rotation)."]
  /\ seed st = Some 5.
Proof. vm_compute. repeat split. Qed.

Example first_invocation_of_a_run :
  hd_error (invocations
              (trace (exec (@OptimizedGenerator.run_generator Stub.one_fact
                              2 3 4 false)
                        (Stub.fresh Stub.one_fact 7))))
  = Some {| ctl_arguments := ["--rand-freq=1"; "-t 1"; "--seed=7";
                              "-c h=2"; "-c w=3"; "-c d=4"];
            ctl_program := "./optimized-generator.lp";
            ctl_facts := "";
            ctl_parts := ["facts"; "block_size_gen"] |}.
Proof. vm_compute. reflexivity. Qed.

Example terminal_stage_prints_empty_model :
  observe (@Generator2.solve_step Stub.empty_model "generator2-programs.lp"
             "rotation" (Py.Int 1) 11 true None
             (Stub.fresh Stub.empty_model 5))
  = (tt, [], ["."]).
Proof. vm_compute. reflexivity. Qed.

(** ** Texts and the prefix test *)

Lemma append_assoc (a b c : string) : (a ++ b) ++ c = a ++ (b ++ c).
Proof. induction a as [|x a IH]; simpl; congruence. Qed.

Lemma prefix_split (p s : string) :
  String.prefix p s = true <-> exists rest, s = p ++ rest.
Proof.
  revert s. induction p as [|a p IH]; intros s.
  - split; [intros _; now exists s | intros _; now destruct s].
  - destruct s as [|b s]; simpl.
    + split; [discriminate | intros [rest H]; discriminate].
    + destruct (ascii_dec a b) as [->|Hab].
      * rewrite IH. split; intros [rest H]; exists rest; congruence.
      * split; [discriminate | intros [rest H]; congruence].
Qed.

Lemma before_paren_app_paren (f rest : string) :
  no_paren f -> before_paren (f ++ "(" ++ rest) = Some f.
Proof.
  unfold no_paren. induction f as [|a f IH]; simpl in *.
  - reflexivity.
  - destruct (Ascii.eqb a "("); [discriminate|].
    destruct (before_paren f); [discriminate|].
    intros _. now rewrite IH.
Qed.

Lemma before_paren_some (s f : string) :
  before_paren s = Some f -> exists rest, s = f ++ "(" ++ rest.
Proof.
  revert f. induction s as [|a s IH]; simpl; intros f H; [discriminate|].
  destruct (Ascii.eqb_spec a "(") as [->|Ha].
  - injection H as <-. now exists s.
  - destruct (before_paren s) as [g|]; [|discriminate].
    injection H as <-. destruct (IH g eq_refl) as [rest ->].
    now exists rest.
Qed.

Lemma before_paren_app_none (f t : string) :
  no_paren f -> no_paren t -> no_paren (f ++ t).
Proof.
  unfold no_paren. intros Hf Ht. revert Hf.
  induction f as [|a f IH]; simpl; [intros _; exact Ht|].
  destruct (Ascii.eqb a "("); [discriminate|].
  destruct (before_paren f); [discriminate|].
  intros _. now rewrite IH.
Qed.

(** The prefix test with a name free of parentheses reads the functor of a
    fact that has arguments. *)
Lemma startswith_name_paren (item f : string) :
  no_paren f ->
  Py.startswith item (f ++ "(") = true <-> before_paren item = Some f.
Proof.
  intros Hf. unfold Py.startswith. rewrite prefix_split. split.
  - intros [rest ->]. rewrite append_assoc.
    now apply before_paren_app_paren.
  - intros H. destruct (before_paren_some _ H) as [rest ->].
    exists rest. now rewrite append_assoc.
Qed.

Lemma startswith_has_args (item f : string) :
  Py.startswith item (f ++ "(") = true -> has_args item = true.
Proof.
  unfold Py.startswith, has_args. rewrite prefix_split.
  intros [rest ->]. clear. induction f as [|a f IH]; simpl.
  - reflexivity.
  - destruct (Ascii.eqb a "("); [reflexivity|].
    destruct (before_paren ((f ++ "(") ++ rest)); [reflexivity|discriminate].
Qed.

Lemma strip_dot_app (f : string) : strip_dot (f ++ ".") = f.
Proof.
  induction f as [|a f IH]; [reflexivity|].
  simpl. rewrite IH. destruct f; reflexivity.
Qed.

Lemma functor_name_zero_arity (name : string) :
  no_paren name ->
  has_args (name ++ ".") = false /\ functor_name (name ++ ".") = name.
Proof.
  intros H. unfold has_args, functor_name.
  assert (Hn : before_paren (name ++ ".") = None).
  { apply before_paren_app_none; [exact H | reflexivity]. }
  rewrite Hn. split; [reflexivity | apply strip_dot_app].
Qed.

(** The membership test of the code against the one of the specification. *)
Lemma selected_by_functor (filter : list string) (item : string) :
  Forall no_paren filter ->
  existsb (fun f => Py.startswith item (f ++ "(")) filter
  = has_args item && existsb (String.eqb (functor_name item)) filter.
Proof.
  intros Hall. unfold has_args, functor_name.
  induction Hall as [|f filter Hf _ IH]; simpl.
  - now rewrite andb_false_r.
  - rewrite IH. clear IH.
    pose proof (startswith_name_paren item Hf) as Hiff.
    destruct (before_paren item) as [g|] eqn:Hg.
    + simpl. f_equal.
      destruct (String.eqb_spec g f) as [->|Hne].
      * now apply Hiff.
      * destruct (Py.startswith item (f ++ "(")); [|reflexivity].
        exfalso. apply Hne. destruct Hiff as [H _].
        specialize (H eq_refl). congruence.
    + simpl. destruct (Py.startswith item (f ++ "(")); [|reflexivity].
      destruct Hiff as [H _]. specialize (H eq_refl). discriminate.
Qed.

Lemma filter_Subseq {A} (p : A -> bool) (l : list A) :
  Subseq (List.filter p l) l.
Proof.
  induction l as [|x l IH]; simpl; [constructor|].
  destruct (p x); now constructor.
Qed.

Lemma filter_twice {A} (p : A -> bool) (l : list A) :
  List.filter p (List.filter p l) = List.filter p l.
Proof.
  induction l as [|x l IH]; simpl; [reflexivity|].
  destruct (p x) eqn:Hx; simpl; [rewrite Hx|]; congruence.
Qed.

Lemma no_paren_run_solver_filter : Forall no_paren run_solver_filter.
Proof. repeat constructor. Qed.

Lemma no_paren_run_solver_without_pipes_filter :
  Forall no_paren run_solver_without_pipes_filter.
Proof. repeat constructor. Qed.

(** ** The Fact Filter *)

(** C4, as stated, fails: a fact of arity zero whose functor is listed is
    not selected.  With ["block"] among the names of [run_solver], the
    fact ["block."] has the functor ["block"], the filter of the
    specification keeps it and the filter of the code drops it. *)
Lemma zero_arity_fact_not_selected :
  In (functor_name "block.") run_solver_filter
  /\ filter_by_functor run_solver_filter ["block."] = ["block."]
  /\ fact_filter run_solver_filter ["block."] = [].
Proof.
  split; [|split]; [|reflexivity|reflexivity].
  simpl. tauto.
Qed.

(** C4, amended: for names free of parentheses, the Fact Filter returns
    exactly the facts that have an argument list and whose functor name is
    one of the listed names, in the order of the store: such a fact is
    included, a fact whose functor is not listed is excluded. *)
Theorem fact_filter_selects_functors_with_args (filter facts : list string) :
  Forall no_paren filter ->
  fact_filter filter facts
  = List.filter
      (fun item => has_args item && existsb (String.eqb (functor_name item)) filter)
      facts
  /\ Subseq (fact_filter filter facts) facts
  /\ (forall item, In item facts -> has_args item = true ->
        In (functor_name item) filter -> In item (fact_filter filter facts))
  /\ (forall item, ~ In (functor_name item) filter ->
        ~ In item (fact_filter filter facts)).
Proof.
  intros Hall.
  assert (Heq : fact_filter filter facts
                = List.filter
                    (fun item => has_args item
                                 && existsb (String.eqb (functor_name item)) filter)
                    facts).
  { unfold fact_filter. apply filter_ext. intros item.
    now apply selected_by_functor. }
  split; [exact Heq|]. split; [apply filter_Subseq|]. split.
  - intros item Hin Hargs Hname. rewrite Heq. apply filter_In. split; [exact Hin|].
    rewrite Hargs. simpl. apply existsb_exists. exists (functor_name item).
    split; [exact Hname | apply String.eqb_refl].
  - intros item Hname Hin. rewrite Heq in Hin. apply filter_In in Hin.
    destruct Hin as [_ Hsel]. apply andb_true_iff in Hsel.
    destruct Hsel as [_ Hex]. apply existsb_exists in Hex.
    destruct Hex as [f [Hf Heqb]]. apply String.eqb_eq in Heqb.
    apply Hname. now rewrite Heqb.
Qed.

Lemma fact_filter_selects_functors_with_args_witness :
  let facts := ["block(1,1,1)."; "pipe(1,2)."; "color(1,red)."; "block."] in
  Forall no_paren run_solver_filter
  /\ Subseq (fact_filter run_solver_filter facts) facts
  /\ In "pipe(1,2)." (fact_filter run_solver_filter facts)
  /\ ~ In "color(1,red)." (fact_filter run_solver_filter facts).
Proof.
  cbn zeta.
  assert (Hnames : Forall no_paren run_solver_filter) by repeat constructor.
  split; [exact Hnames|].
  destruct (fact_filter_selects_functors_with_args
              ["block(1,1,1)."; "pipe(1,2)."; "color(1,red)."; "block."]
              Hnames) as (_ & Hsub & Hin & Hout).
  split; [exact Hsub|]. split.
  - apply Hin; [simpl; tauto | reflexivity | simpl; tauto].
  - apply Hout. simpl. intros H.
    repeat (destruct H as [H|H]; [discriminate H|]). exact H.
Defined.

(** C8: the Fact Filter is idempotent: filtering a filtered list with the
    same names gives the same list. *)
Theorem fact_filter_idempotent (filter facts : list string) :
  fact_filter filter (fact_filter filter facts) = fact_filter filter facts.
Proof. unfold fact_filter. apply filter_twice. Qed.

(** C10: a fact is selected exactly when it is in the store and its text
    begins with a listed name followed by an opening parenthesis; so a
    fact of arity zero, a listed name and the dot, is not selected though
    its functor name is listed. *)
Theorem fact_filter_is_prefix_check (filter facts : list string) :
  (forall item,
      In item (fact_filter filter facts)
      <-> In item facts
          /\ exists f rest, In f filter /\ item = f ++ "(" ++ rest)
  /\ (forall name,
        In name filter -> no_paren name ->
        In (functor_name (name ++ ".")) filter
        /\ ~ In (name ++ ".") (fact_filter filter facts)).
Proof.
  split.
  - intros item. unfold fact_filter. rewrite filter_In, existsb_exists.
    split; intros [Hin [f H]]; (split; [exact Hin|]).
    + destruct H as [Hf Hpre]. apply prefix_split in Hpre.
      destruct Hpre as [rest ->]. exists f, rest.
      split; [exact Hf | apply append_assoc].
    + destruct H as [rest [Hf ->]]. exists f. split; [exact Hf|].
      apply prefix_split. exists rest. symmetry. apply append_assoc.
  - intros name Hin Hname.
    destruct (functor_name_zero_arity Hname) as [Hargs Hfun].
    split; [now rewrite Hfun|].
    intros Hsel. apply filter_In in Hsel. destruct Hsel as [_ Hex].
    apply existsb_exists in Hex. destruct Hex as [f [_ Hpre]].
    apply startswith_has_args in Hpre. congruence.
Qed.

Lemma fact_filter_is_prefix_check_witness :
  In (functor_name ("block" ++ ".")) run_solver_filter
  /\ ~ In ("block" ++ ".")
          (fact_filter run_solver_filter ["block(1,1,1)."; "block."]).
Proof.
  apply (proj2 (fact_filter_is_prefix_check run_solver_filter
                  ["block(1,1,1)."; "block."]) "block").
  - simpl. tauto.
  - reflexivity.
Defined.

(** ** The state monad and the Solve Invoker *)

Section RuntimeFacts.
Context {E : Engine}.

Lemma for_each_collect_model (models : list Model) (st : State) :
  for_each collect_model models st
  = (tt, {| facts := facts st ++ flat_map model_facts models;
            seed := seed st; stdout := stdout st;
            world := world st; trace := trace st |}).
Proof.
  revert st. induction models as [|m models IH]; intros st.
  - simpl. unfold ret. rewrite app_nil_r. now destruct st.
  - simpl. unfold bind at 1. unfold collect_model, bind, get_facts, set_facts.
    rewrite IH. simpl. now rewrite <- app_assoc.
Qed.

Lemma for_each_print (render : Model -> string) (models : list Model)
    (st : State) :
  for_each (fun m => print (render m)) models st
  = (tt, {| facts := facts st; seed := seed st;
            stdout := stdout st ++ map render models;
            world := world st; trace := trace st |}).
Proof.
  revert st. induction models as [|m models IH]; intros st.
  - simpl. unfold ret. rewrite app_nil_r. now destruct st.
  - simpl. unfold bind at 1. unfold print at 1.
    rewrite IH. simpl. now rewrite <- app_assoc.
Qed.

Lemma for_each_skip (models : list Model) (st : State) :
  for_each (fun _ : Model => ret tt) models st = (tt, st).
Proof.
  induction models as [|m models IH]; [reflexivity|].
  simpl. unfold bind at 1. unfold ret at 1. exact IH.
Qed.

(** One Solve Invoker call, in closed form. *)
Lemma solve_step_after (render : Model -> string) (program step : string)
    (rand_freq : Py.num) (parallel : Z) (last : bool)
    (parameters : option (list string)) (st : State) :
  solve_step_with (fun m => print (render m)) program step rand_freq parallel
    last parameters st
  = (tt, after_stage render
           {| st_program := program; st_step := step;
              st_rand_freq := rand_freq; st_parallel := parallel;
              st_last := last; st_parameters := parameters |} st).
Proof.
  unfold solve_step_with, after_stage, stage_models, stage_invocation,
    ctl_solve, bind, log, get_seed, get_facts, on_world.
  destruct last;
    cbn [fst snd facts seed stdout world trace st_program st_step st_rand_freq
         st_parallel st_last st_parameters];
    destruct (clingo_solve _ (world st)) as [models w];
    cbn [fst snd].
  - rewrite for_each_print.
    cbn [fst snd facts seed stdout world trace stage_events].
    rewrite <- !app_assoc. reflexivity.
  - rewrite for_each_collect_model.
    cbn [fst snd facts seed stdout world trace stage_events].
    rewrite <- !app_assoc. reflexivity.
Qed.

Lemma run_stage_after (render : Model -> string) (s : StageSpec) (st : State) :
  run_stage (fun m => print (render m)) s st = (tt, after_stage render s st).
Proof.
  unfold run_stage. rewrite solve_step_after. now destruct s.
Qed.

Lemma run_stages_after (render : Model -> string) (l : list StageSpec)
    (st : State) :
  run_stages (fun m => print (render m)) l st = (tt, after_stages render l st).
Proof.
  revert st. induction l as [|s l IH]; intros st; [reflexivity|].
  unfold run_stages in *. simpl. unfold bind at 1.
  rewrite run_stage_after. apply IH.
Qed.

Lemma merged_facts_stage (s : StageSpec) (inv : Invocation)
    (models : list Model) (evs : list Event) (b : bool) :
  merged_facts b (stage_events s inv models ++ evs)
  = ((if st_last s then [] else flat_map model_facts models)
       ++ merged_facts false evs)%list.
Proof. simpl. now destruct (st_last s). Qed.

Lemma after_stages_trace render l st :
  trace (after_stages render l st) = (trace st ++ run_events render l st)%list.
Proof.
  revert st. induction l as [|s l IH]; intros st; simpl.
  - now rewrite app_nil_r.
  - rewrite IH. simpl. now rewrite <- app_assoc.
Qed.

Lemma after_stages_facts render l st :
  facts (after_stages render l st)
  = (facts st ++ merged_facts false (run_events render l st))%list.
Proof.
  revert st. induction l as [|s l IH]; intros st.
  - simpl. now rewrite app_nil_r.
  - change (after_stages render (s :: l) st)
      with (after_stages render l (after_stage render s st)).
    rewrite IH. cbn [run_events]. rewrite merged_facts_stage.
    cbn [facts after_stage].
    destruct (st_last s); [reflexivity | now rewrite <- app_assoc].
Qed.

Lemma after_stages_seed render l st :
  seed (after_stages render l st) = seed st.
Proof.
  revert st. induction l as [|s l IH]; intros st; simpl; [reflexivity|].
  now rewrite IH.
Qed.

Lemma run_events_Sequenced render l st : Sequenced l (run_events render l st).
Proof.
  revert st. induction l as [|s l IH]; intros st; simpl; constructor. apply IH.
Qed.

(** Every invocation of a run carries the seed of the state it starts in. *)
Lemma run_events_seed render l st :
  Forall (fun inv => nth_error (ctl_arguments inv) 2
                     = Some ("--seed=" ++ str_seed (seed st)))
         (invocations (run_events render l st)).
Proof.
  revert st. induction l as [|s l IH]; intros st; simpl; constructor.
  - reflexivity.
  - specialize (IH (after_stage render s st)). exact IH.
Qed.

Lemma run_events_invocations_length render l st :
  length (invocations (run_events render l st)) = length l.
Proof.
  revert st. induction l as [|s l IH]; intros st; simpl; [reflexivity|].
  now rewrite IH.
Qed.

End RuntimeFacts.

(** ** The generators in closed form *)

Section GeneratorFacts.
Context {E : Engine}.

Ltac run_closed_form :=
  intros;
  unfold Generator2.run_generator, Generator2.before_rotation,
    Generator2.rotation, OptimizedGenerator.run_generator, start_run, exec, bind, set_facts, set_seed, on_world;
  cbn [fst snd facts seed stdout world trace];
  destruct (secrets_randbelow _ _) as [s w'];
  change (@Generator2.solve_step E)
    with (solve_step_with (fun m => print (Generator2.render m)));
  change (@OptimizedGenerator.solve_step E)
    with (solve_step_with (fun m => print (OptimizedGenerator.render m)));
  repeat (rewrite solve_step_after; cbv beta iota);
  reflexivity.

Lemma start_run_state (st : State) :
  exec start_run st
  = {| facts := [];
       seed := Some (fst (secrets_randbelow (2 ^ 31) (world st)));
       stdout := stdout st;
       world := snd (secrets_randbelow (2 ^ 31) (world st));
       trace := trace st |}.
Proof.
  unfold start_run, exec, bind, set_facts, set_seed, on_world.
  cbn [fst snd facts seed stdout world trace].
  now destruct (secrets_randbelow _ _).
Qed.

Lemma generator2_run_generator_stages h w d p (st : State) :
  Generator2.run_generator h w d p st
  = (tt, after_stages Generator2.render (Generator2.stages h w d p)
           (exec start_run st)).
Proof. run_closed_form. Qed.

Lemma optimized_run_generator_stages h w d p (st : State) :
  OptimizedGenerator.run_generator h w d p st
  = (tt, after_stages OptimizedGenerator.render
           (OptimizedGenerator.stages h w d p) (exec start_run st)).
Proof. run_closed_form. Qed.

Lemma generator2_before_rotation_stages h w d (st : State) :
  Generator2.before_rotation h w d st
  = (tt, after_stages Generator2.render
           (removelast (Generator2.stages h w d false)) (exec start_run st)).
Proof. run_closed_form. Qed.

Lemma generator2_rotation_after p (st : State) :
  Generator2.rotation p st
  = (tt, after_stage Generator2.render (Generator2.rotation_spec p) st).
Proof. apply solve_step_after. Qed.

Lemma validate_with_after (render : Model -> string) (program : string)
    (filter : list string) (p : bool) (st : State) :
  let ctl := {| ctl_arguments := ["-t 11"];
                ctl_program := program;
                ctl_facts := Py.join Py.newline (fact_filter filter (facts st));
                ctl_parts := ["facts"; "base"] |} in
  let models := fst (clingo_solve ctl (world st)) in
  validate_with (fun m => print (render m)) program filter p st
  = (tt, {| facts := facts st;
            seed := seed st;
            stdout := if p then stdout st ++ map render models else stdout st;
            world := snd (clingo_solve ctl (world st));
            trace := trace st ++ [EvSolve ctl models] |}).
Proof.
  unfold validate_with, ctl_solve, bind, get_facts, on_world, log.
  destruct p;
    cbn [fst snd facts seed stdout world trace];
    destruct (clingo_solve _ (world st)) as [models w'];
    cbn [fst snd].
  - rewrite for_each_print. reflexivity.
  - rewrite for_each_skip. reflexivity.
Qed.

End GeneratorFacts.

Section RunClosedForm.
Context {E : Engine}.

Lemma exec_generator2_run_generator' h w d p (st : State) :
  exec (Generator2.run_generator h w d p) st
  = after_stages Generator2.render (Generator2.stages h w d p)
      (exec start_run st).
Proof. unfold exec at 1. now rewrite generator2_run_generator_stages. Qed.

Lemma exec_optimized_run_generator' h w d p (st : State) :
  exec (OptimizedGenerator.run_generator h w d p) st
  = after_stages OptimizedGenerator.render (OptimizedGenerator.stages h w d p)
      (exec start_run st).
Proof. unfold exec at 1. now rewrite optimized_run_generator_stages. Qed.

End RunClosedForm.

(** ** The terminal stage *)

(** C1, as stated, fails: [run_generator] hands its own [print] argument
    to the last call as [last], and with [print=False], the default and
    what every caller passes, the rotation stage is solved with
    [collect_model].  With the engine that reports one atom per solve,
    the Fact Store holds four facts before the rotation call and five
    after it. *)
Lemma rotation_atoms_merged_without_print :
  let st0 := Stub.fresh Stub.one_fact 5 in
  let st4 := exec (@Generator2.before_rotation Stub.one_fact 2 2 2) st0 in
  let st5 := exec (@Generator2.rotation Stub.one_fact false) st4 in
  exec (@Generator2.run_generator Stub.one_fact 2 2 2 false) st0 = st5
  /\ facts st4 = ["done(init)."; "done(block_size_gen)."; "done(block_gen).";
                  "done(pipe_gen)."]
  /\ facts st5 = ["done(init)."; "done(block_size_gen)."; "done(block_gen).";
                  "done(pipe_gen)."; "done(rotation)."]
  /\ facts st5 <> facts st4.
Proof.
  vm_compute. repeat split; discriminate.
Qed.

Section TerminalStage.
Context {E : Engine}.

(** C1, amended: the last call of [run_generator] is the rotation stage
    with [last=print].  With [print] true its models are rendered on
    standard output and the Fact Store is what it was before the call;
    with [print] false nothing is printed and the facts of its models are
    appended to the Fact Store. *)
Theorem rotation_rendered_or_merged (h w d : Z) (p : bool) (st : State) :
  let st4 := exec (Generator2.before_rotation h w d) st in
  let st5 := exec (Generator2.rotation p) st4 in
  let models := stage_models (Generator2.rotation_spec p) st4 in
  exec (Generator2.run_generator h w d p) st = st5
  /\ facts st5 = (if p then facts st4
                  else facts st4 ++ flat_map model_facts models)%list
  /\ stdout st5 = (if p then stdout st4 ++ map Generator2.render models
                   else stdout st4)%list.
Proof.
  unfold exec.
  rewrite generator2_run_generator_stages, generator2_before_rotation_stages.
  cbn [snd]. rewrite generator2_rotation_after. cbn [snd].
  split; [reflexivity|].
  unfold after_stage. cbn [facts stdout Generator2.rotation_spec st_last].
  split; reflexivity.
Qed.

End TerminalStage.

(** ** The outcome of a Solve Invoker call *)

(** C2, as stated, fails: [solve_step] has no [return] and drops the
    result of [ctl.solve].  In a run that has started (the seed is drawn,
    the engine is given [--seed=5]), an engine whose search is exhausted
    and an engine that reports one model without atoms leave the caller of
    the first stage with the same value, the same Fact Store and the same
    output; and so they leave the caller of the whole run. *)
Lemma no_model_same_as_empty_model :
  let s := {| st_program := "generator2-programs.lp"; st_step := "init";
              st_rand_freq := Py.Int 0; st_parallel := 1; st_last := false;
              st_parameters := Some ["-c h=2"; "-c w=2"; "-c d=2"] |} in
  let st1 := started Stub.no_model 5 in
  let st2 := started Stub.empty_model 5 in
  seed st1 = Some 5
  /\ seed st2 = Some 5
  /\ ctl_arguments (@stage_invocation Stub.no_model s st1)
     = ["--rand-freq=0"; "-t 1"; "--seed=5"; "-c h=2"; "-c w=2"; "-c d=2"]
  /\ ctl_arguments (@stage_invocation Stub.empty_model s st2)
     = ["--rand-freq=0"; "-t 1"; "--seed=5"; "-c h=2"; "-c w=2"; "-c d=2"]
  /\ @stage_models Stub.no_model s st1 = []
  /\ map symbols_atoms (@stage_models Stub.empty_model s st2) = [[]]
  /\ observe (@Generator2.solve_step Stub.no_model "generator2-programs.lp"
                "init" (Py.Int 0) 1 false
                (Some ["-c h=2"; "-c w=2"; "-c d=2"]) st1)
     = observe (@Generator2.solve_step Stub.empty_model "generator2-programs.lp"
                  "init" (Py.Int 0) 1 false
                  (Some ["-c h=2"; "-c w=2"; "-c d=2"]) st2)
  /\ observe (@Generator2.run_generator Stub.no_model 2 2 2 false
                (Stub.fresh Stub.no_model 5))
     = observe (@Generator2.run_generator Stub.empty_model 2 2 2 false
                  (Stub.fresh Stub.empty_model 5)).
Proof. vm_compute. repeat split. Qed.

Section Outcome.
Context {E : Engine}.

Lemma flat_map_no_atoms (models : list Model) :
  Forall (fun m => symbols_atoms m = []) models ->
  flat_map model_facts models = [].
Proof.
  induction 1 as [|m models Hm _ IH]; [reflexivity|].
  simpl. unfold model_facts at 1. now rewrite Hm, IH.
Qed.

(** C2, amended: [solve_step] returns nothing in every case.  When no
    reported model carries an atom, which covers the search that finds no
    model and the solve that succeeds with zero atoms alike, a call with
    [last=False] leaves the Fact Store and the output as they were: the
    caller sees the same in both cases. *)
Theorem solve_step_without_atoms_is_silent (program step : string)
    (rand_freq : Py.num) (parallel : Z) (parameters : option (list string))
    (st : State) :
  Forall (fun m => symbols_atoms m = [])
    (stage_models {| st_program := program; st_step := step;
                     st_rand_freq := rand_freq; st_parallel := parallel;
                     st_last := false; st_parameters := parameters |} st) ->
  observe (Generator2.solve_step program step rand_freq parallel false
             parameters st)
  = (tt, facts st, stdout st)
  /\ observe (OptimizedGenerator.solve_step program step rand_freq parallel
                false parameters st)
     = (tt, facts st, stdout st).
Proof.
  intros Hno.
  change (@Generator2.solve_step E)
    with (solve_step_with (fun m => print (Generator2.render m))).
  change (@OptimizedGenerator.solve_step E)
    with (solve_step_with (fun m => print (OptimizedGenerator.render m))).
  rewrite !solve_step_after. unfold observe, after_stage.
  cbn [fst snd facts stdout st_last].
  rewrite (flat_map_no_atoms Hno), app_nil_r. split; reflexivity.
Qed.

End Outcome.

Lemma solve_step_without_atoms_is_silent_witness :
  let st := started Stub.no_model 5 in
  seed st = Some 5
  /\ Forall (fun m => symbols_atoms m = [])
       (@stage_models Stub.no_model
          {| st_program := "generator2-programs.lp"; st_step := "block_gen";
             st_rand_freq := Py.Int 1; st_parallel := 11; st_last := false;
             st_parameters := None |} st)
  /\ observe (@Generator2.solve_step Stub.no_model "generator2-programs.lp"
                "block_gen" (Py.Int 1) 11 false None st)
     = (tt, [], []).
Proof.
  cbn zeta. split; [reflexivity|].
  assert (Hno : Forall (fun m => symbols_atoms m = [])
                  (@stage_models Stub.no_model
                     {| st_program := "generator2-programs.lp";
                        st_step := "block_gen"; st_rand_freq := Py.Int 1;
                        st_parallel := 11; st_last := false;
                        st_parameters := None |}
                     (started Stub.no_model 5))).
  { vm_compute. constructor. }
  split; [exact Hno|].
  apply (@solve_step_without_atoms_is_silent Stub.no_model
           "generator2-programs.lp" "block_gen" (Py.Int 1) 11 None
           (started Stub.no_model 5) Hno).
Defined.

(** ** The Fact Store over a run *)

Section FactStore.
Context {E : Engine}.

Lemma merged_facts_no_models (evs : list Event) (b : bool) :
  no_model_reported evs -> merged_facts b evs = [].
Proof.
  intros Hno. revert b.
  induction Hno as [|ev evs Hev _ IH]; intros b; [reflexivity|].
  destruct ev as [s|inv models|s]; simpl; [apply IH| |apply IH].
  rewrite Hev. destruct b; apply IH.
Qed.

(** What a run leaves in the Fact Store, for any list of stages run after
    [start_run]. *)
Lemma facts_after_stages (render : Model -> string) (l : list StageSpec)
    (st : State) :
  let st' := after_stages render l (exec start_run st) in
  let evs := run_events render l (exec start_run st) in
  trace st' = (trace st ++ evs)%list
  /\ Sequenced l evs
  /\ facts st' = merged_facts false evs.
Proof.
  cbn zeta. rewrite after_stages_trace, after_stages_facts, start_run_state.
  cbn [facts trace app]. repeat split. apply run_events_Sequenced.
Qed.

(** The facts that a log stands for are the atoms of the models handed
    to [collect_model], each with its dot. *)
Lemma merged_facts_atoms (evs : list Event) (b : bool) :
  merged_facts b evs = atoms_with_dot (merged_models b evs).
Proof.
  revert b. induction evs as [|ev evs IH]; intros b; [reflexivity|].
  destruct ev as [s|inv models|s]; simpl; [apply IH| |apply IH].
  unfold atoms_with_dot in *. rewrite flat_map_app, IH.
  destruct b; reflexivity.
Qed.

(** C3: [run_generator] first empties the Fact Store; when it returns, the
    Fact Store is the concatenation, in stage order, of the atoms of the
    models reported to the stages solved with [collect_model], each atom's
    text followed by a dot, and it is empty when no stage reported a
    model. *)
Theorem facts_after_run_generator (h w d : Z) (p : bool) (st : State) :
  let st0 := exec start_run st in
  let st' := exec (Generator2.run_generator h w d p) st in
  let evs := run_events Generator2.render (Generator2.stages h w d p) st0 in
  facts st0 = []
  /\ st' = after_stages Generator2.render (Generator2.stages h w d p) st0
  /\ trace st' = (trace st ++ evs)%list
  /\ Sequenced (Generator2.stages h w d p) evs
  /\ facts st' = merged_facts false evs
  /\ facts st'
     = flat_map (fun m => map (fun atom => atom ++ ".") (symbols_atoms m))
         (merged_models false evs)
  /\ (no_model_reported evs -> facts st' = []).
Proof.
  cbn zeta.
  assert (Hrun : exec (Generator2.run_generator h w d p) st
                 = after_stages Generator2.render (Generator2.stages h w d p)
                     (exec start_run st)).
  { unfold exec at 1. now rewrite generator2_run_generator_stages. }
  rewrite Hrun.
  split; [now rewrite start_run_state|]. split; [reflexivity|].
  destruct (facts_after_stages Generator2.render
              (Generator2.stages h w d p) st) as [Htrace [Hseq Hfacts]].
  split; [exact Htrace|]. split; [exact Hseq|]. split; [exact Hfacts|].
  split; [rewrite Hfacts; apply merged_facts_atoms|].
  intros Hno. rewrite Hfacts. now apply merged_facts_no_models.
Qed.

(** C5: the Stage Sequencer makes one Solve Invoker call per Stage Spec,
    in list order, each returned before the next begins: for any list of
    Stage Specs, and for the calls written out in the [run_generator] of
    either program. *)
Theorem stages_invoked_once_in_order :
  (forall (render : Model -> string) (l : list StageSpec) (st : State),
      exists evs,
        trace (exec (run_stages (fun m => print (render m)) l) st)
        = (trace st ++ evs)%list
        /\ Sequenced l evs)
  /\ (forall (h w d : Z) (p : bool) (st : State),
        exists evs,
          trace (exec (Generator2.run_generator h w d p) st)
          = (trace st ++ evs)%list
          /\ Sequenced (Generator2.stages h w d p) evs)
  /\ (forall (h w d : Z) (p : bool) (st : State),
        exists evs,
          trace (exec (OptimizedGenerator.run_generator h w d p) st)
          = (trace st ++ evs)%list
          /\ Sequenced (OptimizedGenerator.stages h w d p) evs).
Proof.
  split; [|split].
  - intros render l st. unfold exec. rewrite run_stages_after. cbn [snd].
    exists (run_events render l st).
    split; [apply after_stages_trace | apply run_events_Sequenced].
  - intros h w d p st. unfold exec at 1.
    rewrite generator2_run_generator_stages. cbn [snd].
    destruct (facts_after_stages Generator2.render
                (Generator2.stages h w d p) st) as [Htrace [Hseq _]].
    eexists. split; [exact Htrace | exact Hseq].
  - intros h w d p st. unfold exec at 1.
    rewrite optimized_run_generator_stages. cbn [snd].
    destruct (facts_after_stages OptimizedGenerator.render
                (OptimizedGenerator.stages h w d p) st) as [Htrace [Hseq _]].
    eexists. split; [exact Htrace | exact Hseq].
Qed.

(** C7: the Validator leaves the Fact Store as it found it, with and
    without [print], in [run_solver] of both programs and in
    [run_solver_without_pipes]. *)
Theorem run_solver_keeps_facts (p : bool) (st : State) :
  facts (exec (Generator2.run_solver p) st) = facts st
  /\ facts (exec (OptimizedGenerator.run_solver p) st) = facts st
  /\ facts (exec (OptimizedGenerator.run_solver_without_pipes p) st) = facts st.
Proof.
  unfold exec, Generator2.run_solver, OptimizedGenerator.run_solver,
    OptimizedGenerator.run_solver_without_pipes.
  change (@Generator2.print_model E)
    with (fun m => print (Generator2.render m)).
  change (@OptimizedGenerator.print_model E)
    with (fun m => print (OptimizedGenerator.render m)).
  rewrite !validate_with_after. cbn [snd facts]. repeat split.
Qed.

End FactStore.

Lemma facts_after_run_generator_witness :
  facts (exec (@Generator2.run_generator Stub.no_model 2 2 2 false)
           (Stub.fresh Stub.no_model 5)) = []
  /\ facts (exec (@Generator2.run_generator Stub.one_fact 2 2 2 false)
              (Stub.fresh Stub.one_fact 5))
     = ["done(init)."; "done(block_size_gen)."; "done(block_gen).";
        "done(pipe_gen)."; "done(rotation)."]
  /\ facts (exec (@Generator2.run_generator Stub.one_fact 2 2 2 true)
              (Stub.fresh Stub.one_fact 5))
     = ["done(init)."; "done(block_size_gen)."; "done(block_gen).";
        "done(pipe_gen)."].
Proof.
  split; [|split].
  - apply (@facts_after_run_generator Stub.no_model 2 2 2 false
             (Stub.fresh Stub.no_model 5)).
    vm_compute. repeat constructor.
  - destruct (@facts_after_run_generator Stub.one_fact 2 2 2 false
                (Stub.fresh Stub.one_fact 5))
      as (_ & _ & _ & _ & _ & Hatoms & _).
    rewrite Hatoms. vm_compute. reflexivity.
  - destruct (@facts_after_run_generator Stub.one_fact 2 2 2 true
                (Stub.fresh Stub.one_fact 5))
      as (_ & _ & _ & _ & _ & Hatoms & _).
    rewrite Hatoms. vm_compute. reflexivity.
Defined.

(** ** The seed *)

Lemma int_of_str_str_int (z : Z) : int_of_str (Py.str_int z) = Some z.
Proof.
  unfold int_of_str, Py.str_int. rewrite NilZero.isi.
  - simpl. now rewrite DecimalZ.of_to.
  - destruct z as [|q|q]; simpl; try discriminate.
    intros [= H]. now apply (DecimalPos.Unsigned.to_uint_nonnil q).
  - destruct z as [|q|q]; simpl; try discriminate.
    intros [= H]. now apply (DecimalPos.Unsigned.to_uint_nonnil q).
Qed.

(** The seed read back from the argument that [solve_step] builds for
    it. *)
Lemma seed_of_argument_seed (z : Z) :
  seed_of_argument ("--seed=" ++ Py.str_int z) = Some z.
Proof. unfold seed_of_argument. simpl. apply int_of_str_str_int. Qed.

Section Seed.
Context {E : Engine}.

(** X18: the seed of a run is one integer drawn by [secrets.randbelow]
    with the bound [2**31] when the run starts, whatever the seed was
    before; it lies in the range [0 <= s < 2**31] that [randbelow]
    promises, it is the seed when the run ends, and the third argument of
    every stage's engine configuration is ["--seed="] followed by the
    seed in decimal: read back, the argument gives the seed.  So it is
    for the five stages of [generator2.py] and the four of
    [optimized-generator.py]. *)
Theorem seed_drawn_once_and_shared
    (Hrange : forall n w, 0 < n -> 0 <= fst (secrets_randbelow n w) < n)
    (h w d : Z) (p : bool) (st : State) :
  let s := fst (secrets_randbelow (2 ^ 31) (world st)) in
  let carries_seed inv :=
    exists arg,
      nth_error (ctl_arguments inv) 2 = Some arg
      /\ arg = "--seed=" ++ Py.str_int s
      /\ seed_of_argument arg = Some s in
  0 <= s < 2 ^ 31
  /\ (let st' := exec (Generator2.run_generator h w d p) st in
      let evs := run_events Generator2.render (Generator2.stages h w d p)
                   (exec start_run st) in
      seed st' = Some s
      /\ trace st' = (trace st ++ evs)%list
      /\ length (invocations evs) = 5%nat
      /\ Forall carries_seed (invocations evs))
  /\ (let st' := exec (OptimizedGenerator.run_generator h w d p) st in
      let evs := run_events OptimizedGenerator.render
                   (OptimizedGenerator.stages h w d p) (exec start_run st) in
      seed st' = Some s
      /\ trace st' = (trace st ++ evs)%list
      /\ length (invocations evs) = 4%nat
      /\ Forall carries_seed (invocations evs)).
Proof.
  cbn zeta. split; [apply Hrange; lia|].
  assert (Hseed : Some (fst (secrets_randbelow (2 ^ 31) (world st)))
                  = seed (exec start_run st)).
  { now rewrite start_run_state. }
  assert (Hcarry : forall render l,
             Forall (fun inv =>
                       exists arg,
                         nth_error (ctl_arguments inv) 2 = Some arg
                         /\ arg = "--seed="
                                  ++ Py.str_int
                                       (fst (secrets_randbelow (2 ^ 31) (world st)))
                         /\ seed_of_argument arg
                            = Some (fst (secrets_randbelow (2 ^ 31) (world st))))
                    (invocations (run_events render l (exec start_run st)))).
  { intros render l.
    pose proof (run_events_seed render l (exec start_run st)) as Hall.
    rewrite <- Hseed in Hall. eapply Forall_impl; [|exact Hall].
    intros inv Harg. eexists. split; [exact Harg|].
    split; [reflexivity | apply seed_of_argument_seed]. }
  split.
  - rewrite exec_generator2_run_generator'.
    rewrite after_stages_seed, after_stages_trace.
    rewrite run_events_invocations_length.
    split; [now rewrite Hseed|]. split; [now rewrite start_run_state|].
    split; [reflexivity | apply Hcarry].
  - rewrite exec_optimized_run_generator'.
    rewrite after_stages_seed, after_stages_trace.
    rewrite run_events_invocations_length.
    split; [now rewrite Hseed|]. split; [now rewrite start_run_state|].
    split; [reflexivity | apply Hcarry].
Qed.

End Seed.

Lemma seed_drawn_once_and_shared_witness :
  (forall n w, 0 < n -> 0 <= fst (@secrets_randbelow Stub.one_fact n w) < n)
  /\ 0 <= 5 < 2 ^ 31
  /\ seed (exec (@Generator2.run_generator Stub.one_fact 3 3 3 false)
             (Stub.fresh Stub.one_fact 5)) = Some 5
  /\ Forall (fun inv => exists arg,
                 nth_error (ctl_arguments inv) 2 = Some arg
                 /\ arg = "--seed=5"
                 /\ seed_of_argument arg = Some 5)
       (invocations
          (run_events Generator2.render (Generator2.stages 3 3 3 false)
             (exec start_run (Stub.fresh Stub.one_fact 5)))).
Proof.
  assert (Hrange : forall n w,
             0 < n -> 0 <= fst (@secrets_randbelow Stub.one_fact n w) < n).
  { intros n w Hn. simpl. apply Z.mod_pos_bound. exact Hn. }
  split; [exact Hrange|].
  destruct (@seed_drawn_once_and_shared Stub.one_fact Hrange 3 3 3 false
              (Stub.fresh Stub.one_fact 5))
    as [Hbound [(Hseed & _ & _ & Hall) _]].
  split; [exact Hbound|]. split; [exact Hseed | exact Hall].
Defined.

(** ** The benchmark sweep *)

Module BenchmarkFacts.
Import Benchmark.

Lemma staircase_step (h w d h' w' d' : Z) :
  staircase h w d ->
  (h' = h /\ w' = w /\ d' = d + 1 /\ h = w /\ w = d)
  \/ (h' = h + 1 /\ w' = w /\ d' = d /\ w = d /\ h < w)
  \/ (h' = h /\ w' = w + 1 /\ d' = d /\ h = w /\ w < d) ->
  staircase h' w' d'
  /\ h' + w' + d' = h + w + d + 1
  /\ h <= h'
  /\ (0 <= h -> size (h, w, d) <= size (h', w', d')).
Proof.
  unfold staircase, size. intros Hst Hstep.
  split; [lia|]. split; [lia|]. split; [lia|]. intros Hh.
  destruct Hstep as [H|[H|H]]; destruct H as (-> & -> & -> & H1 & H2); nia.
Qed.

(** The loop from a state of the staircase: it ends by itself within the
    fuel and every triple is ordered; from non-negative dimensions the
    sizes do not decrease, starting with the size of the current state. *)
Lemma progressive_loop_staircase (fuel : nat) (max_dim : Z) (steps : option Z) :
  forall h w d count,
    staircase h w d ->
    (Z.to_nat (3 * max_dim + 1 - (h + w + d)) < fuel)%nat ->
    let r := progressive_loop fuel max_dim steps h w d count in
    (snd r = Exhausted \/ snd r = Capped)
    /\ Forall ordered (fst r)
    /\ (0 <= h ->
        Sorted Z.le (map size (fst r))
        /\ HdRel Z.le (size (h, w, d)) (map size (fst r))).
Proof.
  induction fuel as [|fuel IH]; intros h w d count Hst Hfuel; [lia|].
  cbn zeta. cbn [progressive_loop].
  destruct ((h <=? max_dim) && (w <=? max_dim) && (d <=? max_dim)) eqn:Hcond.
  2:{ cbn [fst snd map]. repeat split; auto. }
  apply andb_true_iff in Hcond. destruct Hcond as [Hcond Hd].
  apply andb_true_iff in Hcond. destruct Hcond as [Hhm Hwm].
  apply Z.leb_le in Hhm, Hwm, Hd.
  assert (Hord : ordered (h, w, d)) by (unfold ordered, staircase in *; lia).
  assert (Hone : forall e : Stop,
             (e = Exhausted \/ e = Capped) ->
             (e = Exhausted \/ e = Capped)
             /\ Forall ordered [(h, w, d)]
             /\ (0 <= h ->
                 Sorted Z.le (map size [(h, w, d)])
                 /\ HdRel Z.le (size (h, w, d)) (map size [(h, w, d)]))).
  { intros e He. repeat split; auto; repeat constructor; auto. lia. }
  assert (Hmore : forall h' w' d',
             staircase h' w' d'
             /\ h' + w' + d' = h + w + d + 1
             /\ h <= h'
             /\ (0 <= h -> size (h, w, d) <= size (h', w', d')) ->
             let r := progressive_loop fuel max_dim steps h' w' d' (count + 1) in
             (snd r = Exhausted \/ snd r = Capped)
             /\ Forall ordered ((h, w, d) :: fst r)
             /\ (0 <= h ->
                 Sorted Z.le (map size ((h, w, d) :: fst r))
                 /\ HdRel Z.le (size (h, w, d))
                      (map size ((h, w, d) :: fst r)))).
  { intros h' w' d' (Hst' & Hsum & Hhh & Hle). cbn zeta.
    destruct (IH h' w' d' (count + 1) Hst') as (Hend & Hall & Hsizes).
    { lia. }
    split; [exact Hend|]. split; [now constructor|].
    intros Hh. destruct Hsizes as [Hsorted Hhd]; [lia|].
    specialize (Hle Hh). cbn [map]. split.
    - constructor; [exact Hsorted|].
      destruct (map size (fst (progressive_loop fuel max_dim steps h' w' d'
                                 (count + 1)))) as [|x l]; constructor.
      inversion Hhd; subst. lia.
    - constructor. lia. }
  destruct (match steps with
            | Some n => n <=? count + 1
            | None => false
            end).
  { cbn [fst snd]. apply Hone. now right. }
  destruct ((h =? w) && (w =? d)) eqn:H1.
  { apply andb_true_iff in H1. destruct H1 as [Ha Hb].
    apply Z.eqb_eq in Ha, Hb. cbn [fst snd].
    apply Hmore. apply staircase_step; auto; lia. }
  destruct ((w =? d) && (h <? w)) eqn:H2.
  { apply andb_true_iff in H2. destruct H2 as [Ha Hb].
    apply Z.eqb_eq in Ha. apply Z.ltb_lt in Hb. cbn [fst snd].
    apply Hmore. apply staircase_step; auto; lia. }
  destruct ((h =? w) && (w <? d)) eqn:H3.
  { apply andb_true_iff in H3. destruct H3 as [Ha Hb].
    apply Z.eqb_eq in Ha. apply Z.ltb_lt in Hb. cbn [fst snd].
    apply Hmore. apply staircase_step; auto; lia. }
  exfalso. unfold staircase in Hst.
  apply andb_false_iff in H1, H2, H3.
  rewrite Z.eqb_neq, Z.ltb_ge in H2, H3. rewrite !Z.eqb_neq in H1.
  lia.
Qed.

(** The generator is total for every start: the fuel of the model is never
    used up and the last branch is never reached. *)
Lemma progressive_triples_ends (max_dim : Z) (steps : option Z) (start_dim : Z) :
  let sweep := progressive_triples max_dim steps start_dim in
  (snd sweep = Exhausted \/ snd sweep = Capped) /\ Forall ordered (fst sweep).
Proof.
  cbn zeta. unfold progressive_triples.
  destruct (@progressive_loop_staircase (enough max_dim start_dim) max_dim
              steps start_dim start_dim start_dim 0) as (Hend & Hall & _).
  { left. split; reflexivity. }
  { unfold enough. lia. }
  split; assumption.
Qed.

Lemma append_csv_row (file : list Row) (h w d run_idx : Z) (seconds : string) :
  exists row,
    append_csv file h w d run_idx seconds = (file ++ [row])%list
    /\ column "height" row = Some (CInt h)
    /\ column "width" row = Some (CInt w)
    /\ column "depth" row = Some (CInt d)
    /\ column "size" row = Some (CInt (h * w * d)).
Proof. eexists. repeat split. Qed.

Lemma record_runs (secs : Triple -> Z -> string) (t : Triple) (h w d : Z)
    (l : list Z) (file : list Row) :
  fold_left (fun file run_idx => append_csv file h w d run_idx (secs t run_idx))
    l file
  = (file ++ map (fun run_idx => csv_row h w d run_idx (secs t run_idx)) l)%list.
Proof.
  revert file. induction l as [|i l IH]; intros file; simpl.
  - now rewrite app_nil_r.
  - rewrite IH. unfold append_csv. now rewrite <- app_assoc.
Qed.

Lemma record_sweep_rows (secs : Triple -> Z -> string) (file : list Row)
    (triples : list Triple) (repeats : Z) :
  record_sweep secs file triples repeats
  = (file ++ flat_map
               (fun t => let '(h, w, d) := t in
                         map (fun run_idx => csv_row h w d run_idx (secs t run_idx))
                             (runs repeats))
               triples)%list.
Proof.
  unfold record_sweep. revert file.
  induction triples as [|[[h w] d] triples IH]; intros file; simpl.
  - now rewrite app_nil_r.
  - rewrite record_runs, IH. now rewrite <- app_assoc.
Qed.

Lemma csv_row_well_sized (h w d run_idx : Z) (seconds : string) :
  well_sized (csv_row h w d run_idx seconds).
Proof. exists h, w, d. repeat split. Qed.

Lemma sweep_rows_sorted (secs : Triple -> Z -> string) (l : list Z)
    (triples : list Triple) :
  Sorted Z.le (map size triples) ->
  Sorted Z.le
    (map row_size
       (flat_map
          (fun t => let '(h, w, d) := t in
                    map (fun run_idx => csv_row h w d run_idx (secs t run_idx)) l)
          triples)).
Proof.
  intros Hsorted. apply StronglySorted_Sorted.
  apply Sorted_StronglySorted in Hsorted; [|exact Z.le_trans].
  induction triples as [|[[h w] d] triples IH]; simpl; [constructor|].
  inversion Hsorted as [|x xs Hrest Hall]; subst.
  specialize (IH Hrest). rewrite map_app, map_map.
  assert (Hge : Forall (Z.le (h * w * d))
                  (map row_size
                     (flat_map
                        (fun t => let '(h, w, d) := t in
                                  map (fun run_idx =>
                                         csv_row h w d run_idx (secs t run_idx)) l)
                        triples))).
  { clear - Hall. induction triples as [|[[h' w'] d'] triples IH]; simpl.
    - constructor.
    - inversion Hall as [|x xs Hle Hall']; subst.
      rewrite map_app, map_map. apply Forall_app. split; [|now apply IH].
      apply Forall_forall. intros z Hz. apply in_map_iff in Hz.
      destruct Hz as [i [<- _]]. exact Hle. }
  revert IH Hge.
  generalize (map row_size
                (flat_map
                   (fun t => let '(h, w, d) := t in
                             map (fun run_idx =>
                                    csv_row h w d run_idx (secs t run_idx)) l)
                   triples)).
  intros rest IH Hge.
  generalize (secs (h, w, d)). intros sec.
  induction l as [|i l IHl]; simpl; [exact IH|].
  constructor; [exact IHl|].
  apply Forall_app. split; [|exact Hge].
  apply Forall_forall. intros z Hz. apply in_map_iff in Hz.
  destruct Hz as [j [<- _]]. apply Z.le_refl.
Qed.

(** C9: the sweep of [progressive_triples] from dimension 2 ends by itself;
    every triple it yields has height <= width <= depth and the sizes of
    successive triples do not decrease; the row that [append_csv] writes
    has the product of its three dimensions in the [size] column, and so
    has every row that the loops of [main] append for the sweep, with sizes
    that do not decrease from row to row. *)
Theorem progressive_sweep_sizes (max_dim : Z) (steps : option Z) :
  let sweep := progressive_triples max_dim steps 2 in
  (snd sweep = Exhausted \/ snd sweep = Capped)
  /\ Forall ordered (fst sweep)
  /\ Sorted Z.le (map size (fst sweep))
  /\ (forall file h w d run_idx seconds,
        exists row,
          append_csv file h w d run_idx seconds = (file ++ [row])%list
          /\ column "height" row = Some (CInt h)
          /\ column "width" row = Some (CInt w)
          /\ column "depth" row = Some (CInt d)
          /\ column "size" row = Some (CInt (h * w * d)))
  /\ (forall secs file repeats,
        exists rows,
          record_sweep secs file (fst sweep) repeats = (file ++ rows)%list
          /\ Forall well_sized rows
          /\ Sorted Z.le (map row_size rows)).
Proof.
  cbn zeta. unfold progressive_triples.
  destruct (@progressive_loop_staircase (enough max_dim 2) max_dim steps
              2 2 2 0) as (Hend & Hall & Hsizes).
  { left. split; reflexivity. }
  { unfold enough. lia. }
  destruct Hsizes as [Hsorted _]; [lia|].
  split; [exact Hend|]. split; [exact Hall|]. split; [exact Hsorted|].
  split; [apply append_csv_row|].
  intros secs file repeats. eexists.
  split; [apply record_sweep_rows|]. split.
  - apply Forall_forall. intros row Hrow. apply in_flat_map in Hrow.
    destruct Hrow as [[[h w] d] [_ Hrow]]. apply in_map_iff in Hrow.
    destruct Hrow as [i [<- _]]. apply csv_row_well_sized.
  - now apply sweep_rows_sorted.
Qed.

End BenchmarkFacts.

(* ===================================================================== *)
(** * Further properties *)
(* ===================================================================== *)

(** ** [split] and [join] *)

Lemma split_not_nil (c : ascii) (s : string) : Py.split c s <> [].
Proof.
  destruct s as [|a s]; simpl; [discriminate|].
  destruct (Ascii.eqb a c); [discriminate|].
  destruct (Py.split c s); discriminate.
Qed.

Lemma concat_cons_char (sep : string) (a : ascii) (x : string)
    (r : list string) :
  String.concat sep (String a x :: r) = String a (String.concat sep (x :: r)).
Proof. destruct r; reflexivity. Qed.

(** Joining the pieces of a split with the separator gives the text back. *)
Lemma join_split (c : ascii) (s : string) :
  Py.join (String c EmptyString) (Py.split c s) = s.
Proof.
  unfold Py.join. induction s as [|a s IH]; [reflexivity|].
  cbn [Py.split]. destruct (Ascii.eqb_spec a c) as [->|Hac].
  - destruct (Py.split c s) as [|x r] eqn:Hs.
    + now destruct (split_not_nil c s).
    + change (String.concat (String c "") ("" :: x :: r))
        with (String c (String.concat (String c "") (x :: r))).
      now rewrite IH.
  - destruct (Py.split c s) as [|x r] eqn:Hs.
    + now destruct (split_not_nil c s).
    + rewrite concat_cons_char. now rewrite IH.
Qed.

Lemma split_length (c : ascii) (s : string) :
  length (Py.split c s) = S (count_char c s).
Proof.
  induction s as [|a s IH]; [reflexivity|].
  cbn [Py.split count_char]. destruct (Ascii.eqb a c).
  - simpl. now rewrite IH.
  - destruct (Py.split c s) as [|x r]; [discriminate IH|].
    simpl in *. exact IH.
Qed.

Lemma split_pieces_clean (c : ascii) (s : string) :
  Forall (fun piece => count_char c piece = O) (Py.split c s).
Proof.
  induction s as [|a s IH]; [repeat constructor|].
  cbn [Py.split]. destruct (Ascii.eqb a c) eqn:Hac.
  - constructor; [reflexivity | exact IH].
  - destruct (Py.split c s) as [|x r]; [repeat constructor; simpl; now rewrite Hac|].
    inversion IH; subst. constructor; [|assumption].
    simpl. now rewrite Hac.
Qed.

Section PrintModel.
Context {E : Engine}.

(** X1: [print_model] of the optimized generator splits [str(model)] at
    the blanks and joins the pieces with blanks again: it prints
    [str(model)] itself, and touches nothing but the output. *)
Theorem optimized_print_model_prints_str (model : Model) (st : State) :
  OptimizedGenerator.print_model model st
  = (tt, {| facts := facts st; seed := seed st;
            stdout := stdout st ++ [model_str model];
            world := world st; trace := trace st |}).
Proof.
  unfold OptimizedGenerator.print_model, print. rewrite map_id.
  change " " with (String " "%char EmptyString).
  now rewrite join_split.
Qed.

(** X2: [print_model] of [generator2.py] prints one text: the
    blank-separated pieces of [str(model)], each followed by a dot, one
    per line.  There is one piece more than there are blanks (so an empty
    model still prints one line, a lone dot), no piece holds a blank, and
    the pieces joined with blanks are [str(model)]. *)
Theorem generator2_print_model_lines (model : Model) (st : State) :
  exists pieces,
    stdout (exec (Generator2.print_model model) st)
    = app (stdout st)
        [Py.join Py.newline (map (fun atom => atom ++ ".") pieces)]
    /\ facts (exec (Generator2.print_model model) st) = facts st
    /\ length pieces = S (count_char " " (model_str model))
    /\ Forall (fun piece => count_char " " piece = O) pieces
    /\ Py.join " " pieces = model_str model.
Proof.
  exists (Py.split " " (model_str model)).
  split; [reflexivity|]. split; [reflexivity|].
  split; [apply split_length|]. split; [apply split_pieces_clean|].
  change " " with (String " "%char EmptyString). apply join_split.
Qed.

End PrintModel.

(** ** The Fact Store and the stages *)

Section StoreFacts.
Context {E : Engine}.

Lemma flat_map_model_facts_dotted (models : list Model) :
  Forall dotted (flat_map model_facts models).
Proof.
  induction models as [|m models IH]; simpl; [constructor|].
  apply Forall_app. split; [|exact IH].
  unfold model_facts. apply Forall_forall. intros f Hf.
  apply in_map_iff in Hf. destruct Hf as [atom [<- _]]. now exists atom.
Qed.

Lemma merged_facts_dotted (evs : list Event) (b : bool) :
  Forall dotted (merged_facts b evs).
Proof.
  revert b. induction evs as [|ev evs IH]; intros b; simpl; [constructor|].
  destruct ev as [s|inv models|s]; [apply IH| |apply IH].
  apply Forall_app. split; [|apply IH].
  destruct b; [apply flat_map_model_facts_dotted | constructor].
Qed.

Lemma after_stages_app render (l1 l2 : list StageSpec) (st : State) :
  after_stages render (l1 ++ l2) st
  = after_stages render l2 (after_stages render l1 st).
Proof. unfold after_stages. apply fold_left_app. Qed.

Lemma run_events_app render (l1 l2 : list StageSpec) (st : State) :
  run_events render (l1 ++ l2) st
  = (run_events render l1 st
       ++ run_events render l2 (after_stages render l1 st))%list.
Proof.
  revert st. induction l1 as [|s l1 IH]; intros st; [reflexivity|].
  change (run_events render ((s :: l1) ++ l2) st)
    with (stage_events s (stage_invocation s st) (stage_models s st)
            ++ run_events render (l1 ++ l2) (after_stage render s st))%list.
  rewrite IH. reflexivity.
Qed.

Lemma after_stages_quiet render (l : list StageSpec) (st : State) :
  Forall (fun s => st_last s = false) l ->
  stdout (after_stages render l st) = stdout st.
Proof.
  intros Hall. revert st. induction Hall as [|s l Hs _ IH]; intros st;
    [reflexivity|].
  change (after_stages render (s :: l) st)
    with (after_stages render l (after_stage render s st)).
  rewrite IH. unfold after_stage. cbn [stdout]. now rewrite Hs.
Qed.

Lemma exec_run_stages render (l : list StageSpec) (st : State) :
  exec (run_stages (fun m => print (render m)) l) st = after_stages render l st.
Proof. unfold exec. now rewrite run_stages_after. Qed.

Lemma exec_generator2_run_generator h w d p (st : State) :
  exec (Generator2.run_generator h w d p) st
  = after_stages Generator2.render (Generator2.stages h w d p)
      (exec start_run st).
Proof. unfold exec at 1. now rewrite generator2_run_generator_stages. Qed.

Lemma exec_optimized_run_generator h w d p (st : State) :
  exec (OptimizedGenerator.run_generator h w d p) st
  = after_stages OptimizedGenerator.render (OptimizedGenerator.stages h w d p)
      (exec start_run st).
Proof. unfold exec at 1. now rewrite optimized_run_generator_stages. Qed.

(** X3: a [solve_step] call only ever appends to the Fact Store and never
    touches the seed: with [last] false the atoms of the reported models,
    in order and each with a dot after its text, are put after the facts
    that were there and nothing is printed; with [last] true the store is
    left alone and one text per model is printed.  So it is for the
    [solve_step] of both programs. *)
Theorem solve_step_appends_only (program step : string) (rand_freq : Py.num)
    (parallel : Z) (last : bool) (parameters : option (list string))
    (st : State) :
  let models :=
    stage_models {| st_program := program; st_step := step;
                    st_rand_freq := rand_freq; st_parallel := parallel;
                    st_last := last; st_parameters := parameters |} st in
  let added :=
    if last then []
    else flat_map (fun m => map (fun atom => atom ++ ".") (symbols_atoms m))
           models in
  let st2 := exec (Generator2.solve_step program step rand_freq parallel last
                     parameters) st in
  let st3 := exec (OptimizedGenerator.solve_step program step rand_freq
                     parallel last parameters) st in
  (facts st2 = (facts st ++ added)%list
   /\ seed st2 = seed st
   /\ stdout st2 = (stdout st
                    ++ if last then map Generator2.render models else [])%list)
  /\ (facts st3 = (facts st ++ added)%list
      /\ seed st3 = seed st
      /\ stdout st3 = (stdout st
                       ++ if last then map OptimizedGenerator.render models
                          else [])%list).
Proof.
  cbn zeta. unfold exec.
  change (@Generator2.solve_step E)
    with (solve_step_with (fun m => print (Generator2.render m))).
  change (@OptimizedGenerator.solve_step E)
    with (solve_step_with (fun m => print (OptimizedGenerator.render m))).
  rewrite !solve_step_after. unfold after_stage.
  cbn [snd facts seed stdout st_last].
  assert (Hatoms : forall models,
             flat_map model_facts models
             = flat_map (fun m => map (fun atom => atom ++ ".")
                                    (symbols_atoms m)) models).
  { intros models. apply flat_map_ext. intros m. reflexivity. }
  rewrite Hatoms.
  destruct last; rewrite ?app_nil_r; repeat split.
Qed.

(** X4: whatever the engine reports, every fact in the Fact Store after a
    generation run is an atom's text followed by a dot.  So it is for
    both programs. *)
Theorem facts_after_run_are_dotted (h w d : Z) (p : bool) (st : State) :
  Forall dotted (facts (exec (Generator2.run_generator h w d p) st))
  /\ Forall dotted (facts (exec (OptimizedGenerator.run_generator h w d p) st)).
Proof.
  rewrite exec_generator2_run_generator, exec_optimized_run_generator.
  rewrite !after_stages_facts, !start_run_state. cbn [facts app].
  split; apply merged_facts_dotted.
Qed.

(** The input of a stage in the middle of a list of stages. *)
Lemma run_stages_input (render : Model -> string)
    (l1 : list StageSpec) (s : StageSpec) (l2 : list StageSpec) (st : State) :
  let run l := exec (run_stages (fun m => print (render m)) l) st in
  let evs1 := run_events render l1 st in
  let inv := stage_invocation s (run l1) in
  exists models evs2,
    trace (run (l1 ++ s :: l2)%list)
    = (trace st ++ evs1 ++ EvCall s :: EvSolve inv models :: EvReturn s :: evs2)%list
    /\ Sequenced l1 evs1
    /\ Sequenced l2 evs2
    /\ facts (run l1) = (facts st ++ merged_facts false evs1)%list
    /\ ctl_facts inv
       = Py.join Py.newline (facts st ++ merged_facts false evs1)%list.
Proof.
  cbv beta zeta. rewrite !exec_run_stages.
  exists (stage_models s (after_stages render l1 st)).
  exists (run_events render l2
            (after_stage render s (after_stages render l1 st))).
  rewrite after_stages_trace, run_events_app.
  split; [reflexivity|]. split; [apply run_events_Sequenced|].
  split; [apply run_events_Sequenced|].
  cbn [ctl_facts stage_invocation].
  rewrite after_stages_facts. split; reflexivity.
Qed.

(** X5: every stage of a generation run is handed the Fact Store as the
    stages before it left it.  When the calls of [run_generator] are [l1],
    then [s], then [l2], the log of the run is the log of [l1], the one
    call for [s], and the log of [l2], and the block of facts given to
    the engine for [s] is the facts merged by [l1] joined with line
    feeds: nothing of an earlier run, nothing of a later stage. *)
Theorem generator2_stage_input_is_store_so_far (h w d : Z) (p : bool)
    (l1 : list StageSpec) (s : StageSpec) (l2 : list StageSpec) (st : State) :
  Generator2.stages h w d p = (l1 ++ s :: l2)%list ->
  exists inv models evs1 evs2,
    trace (exec (Generator2.run_generator h w d p) st)
    = (trace st ++ evs1 ++ EvCall s :: EvSolve inv models :: EvReturn s :: evs2)%list
    /\ Sequenced l1 evs1
    /\ Sequenced l2 evs2
    /\ ctl_facts inv = Py.join Py.newline (merged_facts false evs1).
Proof.
  intros Hsplit. rewrite exec_generator2_run_generator, Hsplit.
  destruct (run_stages_input Generator2.render l1 s l2 (exec start_run st))
    as (models & evs2 & Htrace & Hseq1 & Hseq2 & _ & Hinput).
  rewrite exec_run_stages in Htrace.
  rewrite start_run_state in Htrace at 2. cbn [trace] in Htrace.
  rewrite start_run_state in Hinput at 2. cbn [facts app] in Hinput.
  eexists. exists models. eexists. exists evs2.
  split; [exact Htrace|]. split; [exact Hseq1|]. split; [exact Hseq2|].
  exact Hinput.
Qed.

End StoreFacts.

Lemma solve_step_appends_only_witness :
  let st := started Stub.one_fact 5 in
  let st' := exec (@Generator2.solve_step Stub.one_fact "generator2-programs.lp"
                     "block_size_gen" (Py.Int 1) 1 false None)
               (exec (@Generator2.solve_step Stub.one_fact
                        "generator2-programs.lp" "init" (Py.Int 0) 1 false
                        (Some ["-c h=2"; "-c w=2"; "-c d=2"])) st) in
  seed st = Some 5
  /\ facts st' = ["done(init)."; "done(block_size_gen)."]
  /\ seed st' = Some 5.
Proof.
  cbn zeta. split; [reflexivity|].
  destruct (@solve_step_appends_only Stub.one_fact "generator2-programs.lp"
              "block_size_gen" (Py.Int 1) 1 false None
              (exec (@Generator2.solve_step Stub.one_fact
                       "generator2-programs.lp" "init" (Py.Int 0) 1 false
                       (Some ["-c h=2"; "-c w=2"; "-c d=2"]))
                 (started Stub.one_fact 5)))
    as [(Hfacts & Hseed & _) _].
  rewrite Hfacts, Hseed. vm_compute. split; reflexivity.
Defined.

Lemma generator2_stage_input_is_store_so_far_witness :
  exists inv models evs1 evs2,
    trace (exec (@Generator2.run_generator Stub.one_fact 2 2 2 false)
             (Stub.fresh Stub.one_fact 5))
    = (evs1 ++ EvCall (@Generator2.rotation_spec false)
               :: EvSolve inv models
               :: EvReturn (@Generator2.rotation_spec false) :: evs2)%list
    /\ ctl_facts inv = Py.join Py.newline (merged_facts false evs1).
Proof.
  destruct (@generator2_stage_input_is_store_so_far Stub.one_fact 2 2 2 false
              (removelast (Generator2.stages 2 2 2 false))
              (Generator2.rotation_spec false) []
              (Stub.fresh Stub.one_fact 5) eq_refl)
    as (inv & models & evs1 & evs2 & Htrace & _ & _ & Hinput).
  exists inv, models, evs1, evs2. split; [exact Htrace | exact Hinput].
Defined.

(** ** Runs, the Validator and the scripts *)

Section Runs.
Context {E : Engine}.

(** Stages run from two states with the same Fact Store, seed and world
    do the same. *)
Lemma after_stages_same_inputs render (l : list StageSpec) (sta stb : State) :
  facts sta = facts stb -> seed sta = seed stb -> world sta = world stb ->
  facts (after_stages render l sta) = facts (after_stages render l stb)
  /\ seed (after_stages render l sta) = seed (after_stages render l stb)
  /\ world (after_stages render l sta) = world (after_stages render l stb)
  /\ run_events render l sta = run_events render l stb
  /\ exists out,
       stdout (after_stages render l sta) = (stdout sta ++ out)%list
       /\ stdout (after_stages render l stb) = (stdout stb ++ out)%list.
Proof.
  revert sta stb. induction l as [|s l IH]; intros sta stb Hf Hs Hw.
  - repeat split; auto. exists []. now rewrite !app_nil_r.
  - assert (Hinv : stage_invocation s sta = stage_invocation s stb).
    { unfold stage_invocation. now rewrite Hf, Hs. }
    assert (Hmodels : stage_models s sta = stage_models s stb).
    { unfold stage_models. now rewrite Hinv, Hw. }
    change (after_stages render (s :: l) sta)
      with (after_stages render l (after_stage render s sta)).
    change (after_stages render (s :: l) stb)
      with (after_stages render l (after_stage render s stb)).
    destruct (IH (after_stage render s sta) (after_stage render s stb))
      as (Hf' & Hs' & Hw' & Hev & out & Ha & Hb).
    { unfold after_stage. cbn [facts]. now rewrite Hf, Hmodels. }
    { exact Hs. }
    { unfold after_stage. cbn [world]. now rewrite Hinv, Hw. }
    split; [exact Hf'|]. split; [exact Hs'|]. split; [exact Hw'|].
    split.
    + cbn [run_events]. now rewrite Hinv, Hmodels, Hev.
    + exists ((if st_last s then map render (stage_models s sta) else []) ++ out)%list.
      rewrite Ha, Hb. unfold after_stage. cbn [stdout]. rewrite <- Hmodels.
      destruct (st_last s); rewrite ?app_nil_r, <- ?app_assoc; split; reflexivity.
Qed.

(** X6: a generation run owes nothing to what an earlier run left behind.
    From two states with the same world, whatever their Fact Store, seed,
    output and log, [run_generator] ends with the same Fact Store, the
    same seed and the same world, makes the same calls with the same
    inputs, and prints the same texts. *)
Theorem run_generator_forgets_earlier_runs (h w d : Z) (p : bool)
    (st1 st2 : State) :
  same_world st1 st2 ->
  let r1 := exec (Generator2.run_generator h w d p) st1 in
  let r2 := exec (Generator2.run_generator h w d p) st2 in
  facts r1 = facts r2
  /\ seed r1 = seed r2
  /\ world r1 = world r2
  /\ exists evs out,
       trace r1 = (trace st1 ++ evs)%list
       /\ trace r2 = (trace st2 ++ evs)%list
       /\ stdout r1 = (stdout st1 ++ out)%list
       /\ stdout r2 = (stdout st2 ++ out)%list.
Proof.
  unfold same_world. intros Hw. cbn zeta.
  rewrite !exec_generator2_run_generator.
  destruct (after_stages_same_inputs Generator2.render
              (Generator2.stages h w d p)
              (exec start_run st1) (exec start_run st2))
    as (Hf & Hs & Hw' & Hev & out & Ha & Hb).
  { now rewrite !start_run_state. }
  { rewrite !start_run_state. cbn [seed]. now rewrite Hw. }
  { rewrite !start_run_state. cbn [world]. now rewrite Hw. }
  split; [exact Hf|]. split; [exact Hs|]. split; [exact Hw'|].
  exists (run_events Generator2.render (Generator2.stages h w d p)
            (exec start_run st1)), out.
  rewrite !after_stages_trace. rewrite <- Hev.
  rewrite Ha, Hb, !start_run_state. cbn [trace stdout].
  repeat split; reflexivity.
Qed.

(** X7: [run_solver] and [run_solver_without_pipes] solve once, over the
    facts selected by their list of names and nothing else, with the
    arguments [["-t 11"]] (no seed, no parameters) and the parts [facts]
    and [base]; they leave the seed alone, and print one text per
    reported model when [print] is set, nothing otherwise. *)
Theorem run_solver_solves_once_over_selection (p : bool) (st : State) :
  let input program names :=
    {| ctl_arguments := ["-t 11"];
       ctl_program := program;
       ctl_facts := Py.join Py.newline (fact_filter names (facts st));
       ctl_parts := ["facts"; "base"] |} in
  let outcome render ctl (st' : State) :=
    let models := fst (clingo_solve ctl (world st)) in
    seed st' = seed st
    /\ world st' = snd (clingo_solve ctl (world st))
    /\ trace st' = (trace st ++ [EvSolve ctl models])%list
    /\ stdout st' = (stdout st ++ if p then map render models else [])%list in
  outcome Generator2.render (input "solver.lp" run_solver_filter)
    (exec (Generator2.run_solver p) st)
  /\ outcome OptimizedGenerator.render (input "./solver.lp" run_solver_filter)
       (exec (OptimizedGenerator.run_solver p) st)
  /\ outcome OptimizedGenerator.render
       (input "./solver-without-pipes.lp" run_solver_without_pipes_filter)
       (exec (OptimizedGenerator.run_solver_without_pipes p) st).
Proof.
  cbv beta zeta.
  unfold exec, Generator2.run_solver, OptimizedGenerator.run_solver,
    OptimizedGenerator.run_solver_without_pipes.
  change (@Generator2.print_model E)
    with (fun m => print (Generator2.render m)).
  change (@OptimizedGenerator.print_model E)
    with (fun m => print (OptimizedGenerator.render m)).
  rewrite !validate_with_after. cbn [snd seed world trace stdout].
  destruct p; rewrite ?app_nil_r; repeat split.
Qed.

Lemma exec_bind {A B} (m : M A) (k : A -> M B) (st : State) :
  exec (bind m k) st = exec (k (fst (m st))) (exec m st).
Proof. unfold exec, bind. now destruct (m st). Qed.

Lemma exec_validate_with (render : Model -> string) (program : string)
    (filter : list string) (p : bool) (st : State) :
  exec (validate_with (fun m => print (render m)) program filter p) st
  = snd (validate_with (fun m => print (render m)) program filter p st).
Proof. reflexivity. Qed.

Lemma exec_print (text : string) (st : State) :
  exec (print text) st
  = {| facts := facts st; seed := seed st; stdout := stdout st ++ [text];
       world := world st; trace := trace st |}.
Proof. reflexivity. Qed.

Lemma generator2_stages_quiet h w d :
  Forall (fun s => st_last s = false) (Generator2.stages h w d false).
Proof. repeat constructor. Qed.

Lemma optimized_stages_quiet h w d :
  Forall (fun s => st_last s = false) (OptimizedGenerator.stages h w d false).
Proof. repeat constructor. Qed.

(** X8: the script of [generator2.py] generates a 3x3x3 box and validates
    it: all it prints is ["Generator finished"], whatever the engine
    reports; the Validator's engine call comes last and is given the
    selection of the Fact Store that the five stages, the rotation stage
    included, left. *)
Theorem generator2_main_output (st : State) :
  let g := exec (Generator2.run_generator 3 3 3 false) st in
  let r := exec Generator2Main.main st in
  stdout r = (stdout st ++ ["Generator finished"])%list
  /\ facts r = facts g
  /\ seed r = seed g
  /\ exists ctl models,
       trace r = (trace g ++ [EvSolve ctl models])%list
       /\ ctl_facts ctl
          = Py.join Py.newline (fact_filter run_solver_filter (facts g)).
Proof.
  cbn zeta. unfold Generator2Main.main. rewrite !exec_bind.
  unfold Generator2.run_solver.
  change (@Generator2.print_model E)
    with (fun m => print (Generator2.render m)).
  rewrite exec_validate_with, validate_with_after.
  cbn [snd facts seed stdout world trace].
  rewrite !exec_print. cbn [snd facts seed stdout world trace].
  assert (Hquiet : stdout (exec (Generator2.run_generator 3 3 3 false) st)
                   = stdout st).
  { rewrite exec_generator2_run_generator.
    rewrite (after_stages_quiet _ _ (generator2_stages_quiet 3 3 3)).
    now rewrite start_run_state. }
  rewrite Hquiet, ?app_nil_r.
  split; [reflexivity|]. split; [reflexivity|]. split; [reflexivity|].
  eexists. eexists. split; reflexivity.
Qed.

(** X9: the script of [optimized-generator.py] generates a box of the
    given dimensions without printing and validates it with [print] set:
    what it prints is [str(model)], as it is, for every model that the
    Validator's solve reports, and nothing else. *)
Theorem optimized_main_output (args : OptimizedGeneratorMain.Namespace)
    (st : State) :
  let g := exec (OptimizedGenerator.run_generator
                   (OptimizedGeneratorMain.args_height args)
                   (OptimizedGeneratorMain.args_width args)
                   (OptimizedGeneratorMain.args_depth args) false) st in
  let ctl := {| ctl_arguments := ["-t 11"];
                ctl_program := "./solver.lp";
                ctl_facts := Py.join Py.newline
                               (fact_filter run_solver_filter (facts g));
                ctl_parts := ["facts"; "base"] |} in
  let models := fst (clingo_solve ctl (world g)) in
  let r := exec (OptimizedGeneratorMain.main args) st in
  stdout r = (stdout st ++ map model_str models)%list
  /\ facts r = facts g
  /\ trace r = (trace g ++ [EvSolve ctl models])%list.
Proof.
  cbn zeta. unfold OptimizedGeneratorMain.main. cbn zeta. rewrite !exec_bind.
  unfold OptimizedGenerator.run_solver.
  change (@OptimizedGenerator.print_model E)
    with (fun m => print (OptimizedGenerator.render m)).
  rewrite exec_validate_with, validate_with_after.
  cbn [snd facts seed stdout world trace].
  assert (Hquiet : forall h w d,
             stdout (exec (OptimizedGenerator.run_generator h w d false) st)
             = stdout st).
  { intros h w d. rewrite exec_optimized_run_generator.
    rewrite (after_stages_quiet _ _ (optimized_stages_quiet h w d)).
    now rewrite start_run_state. }
  rewrite Hquiet.
  split; [|split; reflexivity].
  f_equal. apply map_ext. intros m.
  unfold OptimizedGenerator.render. rewrite map_id.
  change " " with (String " "%char EmptyString). apply join_split.
Qed.

End Runs.

Lemma run_generator_forgets_earlier_runs_witness :
  let st1 := Stub.fresh Stub.one_fact 5 in
  let st2 := @Build_State Stub.one_fact ["old(1)."] (Some 99) ["text"] 5 [] in
  @same_world Stub.one_fact st1 st2
  /\ facts (exec (@Generator2.run_generator Stub.one_fact 2 2 2 false) st1)
     = facts (exec (@Generator2.run_generator Stub.one_fact 2 2 2 false) st2).
Proof.
  cbn zeta. split; [reflexivity|].
  apply (@run_generator_forgets_earlier_runs Stub.one_fact 2 2 2 false
           (Stub.fresh Stub.one_fact 5)
           (@Build_State Stub.one_fact ["old(1)."] (Some 99) ["text"] 5 [])).
  reflexivity.
Defined.

(** ** The two name lists of the Validator *)

Lemma filter_filter_implied {A} (p q : A -> bool) (l : list A) :
  (forall x, p x = true -> q x = true) ->
  List.filter p (List.filter q l) = List.filter p l.
Proof.
  intros Himp. induction l as [|x l IH]; simpl; [reflexivity|].
  destruct (q x) eqn:Hq; simpl.
  - now rewrite IH.
  - rewrite IH. destruct (p x) eqn:Hp; [|reflexivity].
    apply Himp in Hp. congruence.
Qed.

(** X10: selecting with a list of names after selecting with a list that
    holds all of them is selecting with the first list at once. *)
Theorem fact_filter_after_wider_filter (names wider facts : list string) :
  incl names wider ->
  fact_filter names (fact_filter wider facts) = fact_filter names facts.
Proof.
  intros Hincl. unfold fact_filter. apply filter_filter_implied.
  intros item Hsel. apply existsb_exists in Hsel.
  destruct Hsel as [f [Hf Hpre]]. apply existsb_exists.
  exists f. split; [now apply Hincl | exact Hpre].
Qed.

Lemma fact_filter_after_wider_filter_witness :
  incl run_solver_without_pipes_filter run_solver_filter
  /\ fact_filter run_solver_without_pipes_filter
       (fact_filter run_solver_filter
          ["block(1,1,1)."; "pipe(1,2)."; "color(1,red)."; "depth(3)."])
     = ["block(1,1,1)."; "depth(3)."].
Proof.
  assert (Hincl : incl run_solver_without_pipes_filter run_solver_filter).
  { intros x Hx. simpl in *. tauto. }
  split; [exact Hincl|].
  rewrite (fact_filter_after_wider_filter
             ["block(1,1,1)."; "pipe(1,2)."; "color(1,red)."; "depth(3)."]
             Hincl).
  reflexivity.
Defined.

Lemma prefix_app_l (p q s : string) :
  String.prefix (p ++ q) s = true -> String.prefix p s = true.
Proof.
  rewrite !prefix_split. intros [rest ->]. exists (q ++ rest).
  apply append_assoc.
Qed.

(** X11: what [run_solver_without_pipes] selects is what [run_solver]
    selects, without the facts whose text begins with [pipe]: the facts
    of [pipe], [pipe_in] and [pipe_out] are withheld and no other. *)
Theorem without_pipes_withholds_pipe_facts (facts : list string) :
  fact_filter run_solver_without_pipes_filter facts
  = List.filter (fun item => negb (Py.startswith item "pipe"))
      (fact_filter run_solver_filter facts).
Proof.
  unfold fact_filter. induction facts as [|item facts IH]; [reflexivity|].
  cbn [List.filter]. rewrite IH. clear IH.
  assert (Hitem :
    existsb (fun f => Py.startswith item (f ++ "("))
      run_solver_without_pipes_filter
    = existsb (fun f => Py.startswith item (f ++ "(")) run_solver_filter
      && negb (Py.startswith item "pipe")
    /\ (existsb (fun f => Py.startswith item (f ++ "("))
          run_solver_without_pipes_filter = true ->
        existsb (fun f => Py.startswith item (f ++ "(")) run_solver_filter
        = true)).
  { unfold Py.startswith, run_solver_without_pipes_filter, run_solver_filter.
    cbn [existsb]. destruct (String.prefix "pipe" item) eqn:Hpipe.
    - apply prefix_split in Hpipe. destruct Hpipe as [rest ->].
      cbn [negb]. rewrite andb_false_r. split; [reflexivity | discriminate].
    - assert (Hno : forall q, String.prefix ("pipe" ++ q) item = false).
      { intros q. destruct (String.prefix ("pipe" ++ q) item) eqn:Hq;
          [|reflexivity].
        apply prefix_app_l in Hq. congruence. }
      change ("pipe" ++ "(") with ("pipe" ++ "(").
      change ("pipe_in" ++ "(") with ("pipe" ++ "_in(").
      change ("pipe_out" ++ "(") with ("pipe" ++ "_out(").
      rewrite !Hno. cbn [negb]. rewrite !orb_false_r, andb_true_r.
      split; [reflexivity | auto]. }
  destruct Hitem as [Heq Himp].
  destruct (existsb _ run_solver_without_pipes_filter) eqn:Hsel.
  - rewrite (Himp eq_refl) in *. cbn [List.filter].
    symmetry in Heq. apply andb_true_iff in Heq. destruct Heq as [_ Hneg].
    now rewrite Hneg.
  - destruct (existsb _ run_solver_filter); [|reflexivity].
    cbn [List.filter]. simpl in Heq. now rewrite <- Heq.
Qed.

(** ** The sweep from any start *)

Module SweepFacts.
Import Benchmark.

Lemma bumped_size (t t' : Triple) : bumped t t' -> size t <= size t'.
Proof.
  destruct t as [[h w] d]. unfold bumped, size.
  intros [(-> & -> & ->)|[(-> & -> & ->)|(-> & -> & ->)]]; nia.
Qed.

Lemma bumped_size_strict (lo hi : Z) (t t' : Triple) :
  1 <= lo -> on_staircase lo hi t -> bumped t t' -> size t < size t'.
Proof.
  destruct t as [[h w] d]. unfold bumped, size, on_staircase.
  intros Hlo (_ & Hh & _).
  intros [(-> & -> & ->)|[(-> & -> & ->)|(-> & -> & ->)]]; nia.
Qed.

Lemma Sorted_map_where {A B} (R : A -> A -> Prop) (R' : B -> B -> Prop)
    (Q : A -> Prop) (f : A -> B) (l : list A) :
  (forall x y, Q x -> R x y -> R' (f x) (f y)) ->
  Forall Q l -> Sorted R l -> Sorted R' (map f l).
Proof.
  intros Hstep Hall Hsorted.
  induction Hsorted as [|x l Hsorted IH Hhd]; simpl; constructor.
  - apply IH. now inversion Hall.
  - inversion Hall; subst. destruct Hhd; simpl; constructor. now apply Hstep.
Qed.

(** The loop from a state of the staircase: it ends by itself within the
    fuel; what it yields begins with the state, goes on by bumps and stays
    on the staircase between the state and [max_dim]. *)
Lemma progressive_loop_bumps (fuel : nat) (max_dim : Z) (steps : option Z) :
  forall h w d count,
    staircase h w d ->
    (Z.to_nat (3 * max_dim + 1 - (h + w + d)) < fuel)%nat ->
    let r := progressive_loop fuel max_dim steps h w d count in
    (snd r = Exhausted \/ snd r = Capped)
    /\ Sorted bumped (fst r)
    /\ HdRel eq (h, w, d) (fst r)
    /\ Forall (on_staircase h max_dim) (fst r).
Proof.
  induction fuel as [|fuel IH]; intros h w d count Hst Hfuel; [lia|].
  cbn zeta. cbn [progressive_loop].
  destruct ((h <=? max_dim) && (w <=? max_dim) && (d <=? max_dim)) eqn:Hcond.
  2:{ cbn [fst snd]. repeat split; auto. }
  apply andb_true_iff in Hcond. destruct Hcond as [Hcond Hd].
  apply andb_true_iff in Hcond. destruct Hcond as [Hhm Hwm].
  apply Z.leb_le in Hhm, Hwm, Hd.
  assert (Hhere : on_staircase h max_dim (h, w, d)).
  { unfold on_staircase. split; [exact Hst | lia]. }
  assert (Hmore : forall h' w' d',
             bumped (h, w, d) (h', w', d') ->
             let r := progressive_loop fuel max_dim steps h' w' d' (count + 1) in
             (snd r = Exhausted \/ snd r = Capped)
             /\ Sorted bumped ((h, w, d) :: fst r)
             /\ HdRel eq (h, w, d) ((h, w, d) :: fst r)
             /\ Forall (on_staircase h max_dim) ((h, w, d) :: fst r)).
  { intros h' w' d' Hbump. cbn zeta.
    assert (Hnext : staircase h' w' d' /\ h <= h'
                    /\ h' + w' + d' = h + w + d + 1).
    { unfold bumped, staircase in *.
      destruct Hbump as [(-> & -> & Heq)|[(-> & -> & Heq)|(-> & -> & Heq)]];
        injection Heq as -> -> ->; lia. }
    destruct Hnext as (Hst' & Hle & Hsum).
    destruct (IH h' w' d' (count + 1) Hst') as (Hend & Hsorted & Hhd & Hall).
    { lia. }
    split; [exact Hend|]. split; [|split].
    - constructor; [exact Hsorted|].
      destruct Hhd as [|t l Ht]; constructor. now subst t.
    - now constructor.
    - constructor; [exact Hhere|].
      eapply Forall_impl; [|exact Hall].
      intros [[a b] c]. unfold on_staircase. intros (Hs & Ha & Hc).
      split; [exact Hs | lia]. }
  destruct (match steps with
            | Some n => n <=? count + 1
            | None => false
            end).
  { cbn [fst snd]. split; [now right|].
    split; [constructor; constructor|]. split; [now constructor|].
    constructor; [exact Hhere | constructor]. }
  destruct ((h =? w) && (w =? d)) eqn:H1.
  { apply andb_true_iff in H1. destruct H1 as [Ha Hb].
    apply Z.eqb_eq in Ha, Hb. cbn [fst snd].
    apply Hmore. left. auto. }
  destruct ((w =? d) && (h <? w)) eqn:H2.
  { apply andb_true_iff in H2. destruct H2 as [Ha Hb].
    apply Z.eqb_eq in Ha. apply Z.ltb_lt in Hb. cbn [fst snd].
    apply Hmore. right. left. unfold staircase in Hst.
    repeat split; try lia. }
  destruct ((h =? w) && (w <? d)) eqn:H3.
  { apply andb_true_iff in H3. destruct H3 as [Ha Hb].
    apply Z.eqb_eq in Ha. apply Z.ltb_lt in Hb. cbn [fst snd].
    apply Hmore. right. right. unfold staircase in Hst.
    repeat split; try lia. }
  exfalso. unfold staircase in Hst.
  apply andb_false_iff in H1, H2, H3.
  rewrite Z.eqb_neq, Z.ltb_ge in H2, H3. rewrite !Z.eqb_neq in H1.
  lia.
Qed.

(** The sweep as a chain of bumps on the staircase. *)
Lemma progressive_triples_chain (max_dim : Z) (steps : option Z)
    (start_dim : Z) :
  let sweep := progressive_triples max_dim steps start_dim in
  (snd sweep = Exhausted \/ snd sweep = Capped)
  /\ Sorted bumped (fst sweep)
  /\ Forall (on_staircase start_dim max_dim) (fst sweep).
Proof.
  cbn zeta. unfold progressive_triples.
  destruct (@progressive_loop_bumps (enough max_dim start_dim) max_dim steps
              start_dim start_dim start_dim 0) as (Hend & Hsorted & _ & Hall).
  { left. split; reflexivity. }
  { unfold enough. lia. }
  repeat split; assumption.
Qed.

(** X12: from every start, with or without a cap, [progressive_triples]
    ends by itself and never reaches the branch that raises
    [AssertionError].  It yields triples with height <= width <= depth and
    every dimension from [start_dim] to [max_dim]; each triple comes from
    the one before by a bump of one smallest dimension, and the sizes do
    not decrease, for a zero or negative start too. *)
Theorem progressive_triples_bumps (max_dim : Z) (steps : option Z)
    (start_dim : Z) :
  let sweep := progressive_triples max_dim steps start_dim in
  (snd sweep = Exhausted \/ snd sweep = Capped)
  /\ Sorted bumped (fst sweep)
  /\ Forall (on_staircase start_dim max_dim) (fst sweep)
  /\ Forall ordered (fst sweep)
  /\ Sorted Z.le (map size (fst sweep)).
Proof.
  cbn zeta.
  destruct (progressive_triples_chain max_dim steps start_dim)
    as (Hend & Hsorted & Hall).
  split; [exact Hend|]. split; [exact Hsorted|]. split; [exact Hall|]. split.
  - eapply Forall_impl; [|exact Hall].
    intros [[a b] c]. unfold on_staircase, ordered, staircase. lia.
  - apply (@Sorted_map_where _ _ bumped Z.le (fun _ => True) size).
    + intros x y _. apply bumped_size.
    + apply Forall_forall. auto.
    + exact Hsorted.
Qed.

(** X13: from a start of at least 1 the sizes of the sweep grow strictly,
    so no two triples of a sweep have the same size. *)
Theorem progressive_triples_sizes_grow (max_dim : Z) (steps : option Z)
    (start_dim : Z) :
  1 <= start_dim ->
  Sorted Z.lt (map size (fst (progressive_triples max_dim steps start_dim)))
  /\ NoDup (map size (fst (progressive_triples max_dim steps start_dim))).
Proof.
  intros Hstart.
  destruct (progressive_triples_chain max_dim steps start_dim)
    as (_ & Hsorted & Hall).
  assert (Hlt : Sorted Z.lt
                  (map size (fst (progressive_triples max_dim steps start_dim)))).
  { apply (@Sorted_map_where _ _ bumped Z.lt
             (on_staircase start_dim max_dim) size).
    - intros x y Hx Hxy. exact (@bumped_size_strict _ _ x y Hstart Hx Hxy).
    - exact Hall.
    - exact Hsorted. }
  split; [exact Hlt|].
  apply Sorted_StronglySorted in Hlt; [|exact Z.lt_trans].
  induction Hlt as [|x l _ IH Hx]; constructor; [|exact IH].
  intros Hin. rewrite Forall_forall in Hx. specialize (Hx x Hin). lia.
Qed.

End SweepFacts.

Lemma progressive_triples_sizes_grow_witness :
  1 <= 2
  /\ Sorted Z.lt
       (map Benchmark.size (fst (Benchmark.progressive_triples 4 None 2))).
Proof.
  split; [lia|].
  apply (SweepFacts.progressive_triples_sizes_grow 4 None (start_dim := 2)).
  lia.
Defined.

(** ** The cap, the length and the ends of the sweep *)

Module SweepShape.
Import Benchmark.

Lemma progressive_loop_cap (fuel : nat) (max_dim n : Z) :
  forall h w d count,
    fst (progressive_loop fuel max_dim (Some n) h w d count)
    = firstn (Z.to_nat (Z.max (n - count) 1))
        (fst (progressive_loop fuel max_dim None h w d count)).
Proof.
  induction fuel as [|fuel IH]; intros h w d count.
  - cbn [progressive_loop fst]. now rewrite firstn_nil.
  - cbn [progressive_loop].
    destruct ((h <=? max_dim) && (w <=? max_dim) && (d <=? max_dim));
      [|cbn [fst]; now rewrite firstn_nil].
    assert (Hk : Z.to_nat (Z.max (n - count) 1)
                 = S (Z.to_nat (Z.max (n - count) 1) - 1)) by lia.
    rewrite Hk. clear Hk.
    destruct (Z.leb_spec n (count + 1)) as [Hcap|Hcap].
    + replace (Z.to_nat (Z.max (n - count) 1) - 1)%nat with O by lia.
      destruct ((h =? w) && (w =? d)); [reflexivity|].
      destruct ((w =? d) && (h <? w)); [reflexivity|].
      destruct ((h =? w) && (w <? d)); reflexivity.
    + assert (Hk' : (Z.to_nat (Z.max (n - count) 1) - 1)%nat
                    = Z.to_nat (Z.max (n - (count + 1)) 1)) by lia.
      rewrite Hk'. clear Hk'.
      destruct ((h =? w) && (w =? d));
        [cbn [fst firstn]; now rewrite IH|].
      destruct ((w =? d) && (h <? w));
        [cbn [fst firstn]; now rewrite IH|].
      destruct ((h =? w) && (w <? d));
        [cbn [fst firstn]; now rewrite IH|].
      cbn [fst firstn]. now rewrite firstn_nil.
Qed.

(** X14: a cap of [steps] cuts the sweep and changes nothing else: the
    capped sweep is the first [steps] triples of the sweep without a cap.
    The cap is looked at after a triple is yielded, so a cap of zero or
    less still lets the first triple through. *)
Theorem progressive_triples_cap_is_prefix (max_dim n start_dim : Z) :
  fst (progressive_triples max_dim (Some n) start_dim)
  = firstn (Z.to_nat (Z.max n 1))
      (fst (progressive_triples max_dim None start_dim)).
Proof.
  unfold progressive_triples. rewrite progressive_loop_cap.
  now rewrite Z.sub_0_r.
Qed.

Lemma progressive_loop_length (fuel : nat) (max_dim : Z) :
  forall h w d count,
    staircase h w d ->
    (Z.to_nat (3 * max_dim + 1 - (h + w + d)) < fuel)%nat ->
    let ts := fst (progressive_loop fuel max_dim None h w d count) in
    length ts = Z.to_nat (3 * max_dim + 1 - (h + w + d))
    /\ last ts (max_dim, max_dim, max_dim) = (max_dim, max_dim, max_dim).
Proof.
  induction fuel as [|fuel IH]; intros h w d count Hst Hfuel; [lia|].
  cbn zeta. cbn [progressive_loop].
  destruct ((h <=? max_dim) && (w <=? max_dim) && (d <=? max_dim)) eqn:Hcond.
  2:{ cbn [fst Datatypes.length last]. split; [|reflexivity].
      apply andb_false_iff in Hcond. rewrite andb_false_iff in Hcond.
      rewrite !Z.leb_gt in Hcond. unfold staircase in Hst.
      lia. }
  apply andb_true_iff in Hcond. destruct Hcond as [Hcond Hd].
  apply andb_true_iff in Hcond. destruct Hcond as [Hhm Hwm].
  apply Z.leb_le in Hhm, Hwm, Hd.
  assert (Hmore : forall h' w' d',
             staircase h' w' d' -> h' + w' + d' = h + w + d + 1 ->
             let ts := (h, w, d)
                       :: fst (progressive_loop fuel max_dim None h' w' d'
                                 (count + 1)) in
             length ts = Z.to_nat (3 * max_dim + 1 - (h + w + d))
             /\ last ts (max_dim, max_dim, max_dim)
                = (max_dim, max_dim, max_dim)).
  { intros h' w' d' Hst' Hsum. cbn zeta.
    destruct (IH h' w' d' (count + 1) Hst') as [Hlen Hlast]; [lia|].
    revert Hlen Hlast.
    generalize (fst (progressive_loop fuel max_dim None h' w' d' (count + 1))).
    intros rest Hlen Hlast.
    unfold Triple in *.
    split; [cbn [Datatypes.length]; lia|].
    destruct rest as [|t ts].
    - cbn [last]. cbn [Datatypes.length] in Hlen.
      assert (h = max_dim /\ w = max_dim /\ d = max_dim) as (-> & -> & ->)
        by lia.
      reflexivity.
    - exact Hlast. }
  unfold staircase in Hst.
  destruct ((h =? w) && (w =? d)) eqn:H1.
  { apply andb_true_iff in H1. destruct H1 as [Ha Hb].
    apply Z.eqb_eq in Ha, Hb. cbn [fst snd].
    apply Hmore; unfold staircase; lia. }
  destruct ((w =? d) && (h <? w)) eqn:H2.
  { apply andb_true_iff in H2. destruct H2 as [Ha Hb].
    apply Z.eqb_eq in Ha. apply Z.ltb_lt in Hb. cbn [fst snd].
    apply Hmore; unfold staircase; lia. }
  destruct ((h =? w) && (w <? d)) eqn:H3.
  { apply andb_true_iff in H3. destruct H3 as [Ha Hb].
    apply Z.eqb_eq in Ha. apply Z.ltb_lt in Hb. cbn [fst snd].
    apply Hmore; unfold staircase; lia. }
  exfalso.
  apply andb_false_iff in H1, H2, H3.
  rewrite Z.eqb_neq, Z.ltb_ge in H2, H3. rewrite !Z.eqb_neq in H1.
  lia.
Qed.

(** X15: without a cap the sweep has [3 * (max_dim - start_dim) + 1]
    triples, none when [start_dim] is above [max_dim]; when it has any, it
    begins with the cube of [start_dim] and ends with the cube of
    [max_dim]. *)
Theorem progressive_triples_shape (max_dim start_dim : Z) :
  let ts := fst (progressive_triples max_dim None start_dim) in
  length ts = Z.to_nat (3 * (max_dim - start_dim) + 1)
  /\ hd (start_dim, start_dim, start_dim) ts
     = (start_dim, start_dim, start_dim)
  /\ last ts (max_dim, max_dim, max_dim) = (max_dim, max_dim, max_dim).
Proof.
  cbn zeta. unfold progressive_triples.
  assert (Hst : staircase start_dim start_dim start_dim).
  { left. split; reflexivity. }
  assert (Hfuel : (Z.to_nat (3 * max_dim + 1
                             - (start_dim + start_dim + start_dim))
                   < enough max_dim start_dim)%nat).
  { unfold enough. lia. }
  destruct (@progressive_loop_length (enough max_dim start_dim) max_dim
              start_dim start_dim start_dim 0 Hst Hfuel) as [Hlen Hlast].
  destruct (@SweepFacts.progressive_loop_bumps (enough max_dim start_dim)
              max_dim None start_dim start_dim start_dim 0 Hst Hfuel)
    as (_ & _ & Hhd & _).
  split; [rewrite Hlen; f_equal; lia|]. split; [|exact Hlast].
  destruct Hhd as [|t ts Ht]; [reflexivity | now subst t].
Qed.

End SweepShape.

(** ** The rows of a benchmark *)

Module CsvFacts.
Import Benchmark BenchmarkCsv.

Lemma runs_length (repeats : Z) : length (runs repeats) = Z.to_nat repeats.
Proof. unfold runs. now rewrite length_map, length_seq. Qed.

Lemma runs_In (repeats i : Z) : In i (runs repeats) <-> 1 <= i <= repeats.
Proof.
  unfold runs. rewrite in_map_iff. split.
  - intros [n [<- Hn]]. apply in_seq in Hn. lia.
  - intros Hi. exists (Z.to_nat i). split; [lia|]. apply in_seq. lia.
Qed.

Lemma flat_map_length_const {A B} (f : A -> list B) (n : nat) (l : list A) :
  (forall x, length (f x) = n) -> length (flat_map f l) = (length l * n)%nat.
Proof.
  intros Hf. induction l as [|x l IH]; [reflexivity|].
  simpl. now rewrite length_app, Hf, IH.
Qed.

(** The rows that the [append_csv(args.outcsv, ...)] call of the loops
    appends for a sweep: one per triple and run, none when [repeats] is
    zero or less, each with a run index from 1 to [repeats], after the
    rows that were in the file. *)
Lemma record_sweep_row_count (secs : Triple -> Z -> string)
    (file : list Row) (triples : list Triple) (repeats : Z) :
  exists rows,
    record_sweep secs file triples repeats = (file ++ rows)%list
    /\ length rows = (length triples * Z.to_nat repeats)%nat
    /\ Forall (fun row => exists i,
                   run_of row = Some (CInt i) /\ 1 <= i <= repeats) rows.
Proof.
  eexists. split; [apply BenchmarkFacts.record_sweep_rows|]. split.
  - apply flat_map_length_const. intros [[h w] d].
    now rewrite length_map, runs_length.
  - apply Forall_forall. intros row Hrow. apply in_flat_map in Hrow.
    destruct Hrow as [[[h w] d] [_ Hrow]]. apply in_map_iff in Hrow.
    destruct Hrow as [i [<- Hi]]. exists i.
    split; [reflexivity | now apply runs_In].
Qed.


End CsvFacts.

(** ** The files that [main] writes *)

Module MainFacts.
Import Benchmark BenchmarkCsv BenchmarkMain.

Lemma init_csv_opened (path : Path) :
  init_csv path = Some (opened (init_csv path)).
Proof. now destruct path. Qed.

Lemma rows_of_run_length secs solver_secs args p t i :
  length (rows_of_run secs solver_secs args p t i) = rows_per_run args p.
Proof.
  destruct t as [[h w] d]. unfold rows_of_run, rows_per_run.
  rewrite length_app.
  destruct (String.eqb p (args_outcsv args));
    destruct (args_solve args && String.eqb p solver_outcsv); reflexivity.
Qed.

Lemma rows_of_run_rows secs solver_secs args p t i row :
  In row (rows_of_run secs solver_secs args p t i) ->
  well_sized row /\ run_of row = Some (CInt i).
Proof.
  destruct t as [[h w] d]. unfold rows_of_run. intros Hin.
  apply in_app_or in Hin.
  destruct Hin as [Hin|Hin];
    [destruct (String.eqb p (args_outcsv args))
    |destruct (args_solve args && String.eqb p solver_outcsv)];
    simpl in Hin; try contradiction;
    destruct Hin as [<-|[]];
    (split; [apply BenchmarkFacts.csv_row_well_sized | reflexivity]).
Qed.

Lemma write_same (fs : Files) (path : string) (content : Path) :
  write fs path content path = content.
Proof. unfold write. now rewrite String.eqb_refl. Qed.

Lemma write_other (fs : Files) (path : string) (content : Path) (p : string) :
  p <> path -> write fs path content p = fs p.
Proof.
  intros Hp. unfold write.
  destruct (String.eqb_spec p path); [contradiction | reflexivity].
Qed.

(** One run, seen from a file that exists. *)
Lemma record_run_at secs solver_secs args (fs : Files) t i p c :
  fs p = Some c ->
  record_run secs solver_secs args fs t i p
  = Some (c ++ rows_of_run secs solver_secs args p t i)%list.
Proof.
  destruct t as [[h w] d]. intros Hp.
  unfold record_run, rows_of_run, append_csv_at.
  destruct (String.eqb_spec p (args_outcsv args)) as [Hout|Hout].
  - subst p. rewrite Hp. cbn [opened].
    destruct (args_solve args); cbn [andb].
    + destruct (String.eqb_spec (args_outcsv args) solver_outcsv) as [Hs|Hs].
      * rewrite <- Hs. rewrite !write_same. cbn [opened].
        unfold append_csv, csv_row. now rewrite <- app_assoc.
      * rewrite (write_other _ _ Hs), write_same.
        unfold append_csv, csv_row. now rewrite app_nil_r.
    + rewrite write_same. unfold append_csv, csv_row. now rewrite app_nil_r.
  - destruct (args_solve args); cbn [andb].
    + destruct (String.eqb_spec p solver_outcsv) as [Hs|Hs].
      * subst p. rewrite write_same, (write_other _ _ Hout), Hp.
        reflexivity.
      * rewrite (write_other _ _ Hs), (write_other _ _ Hout), Hp.
        now rewrite app_nil_r.
    + rewrite (write_other _ _ Hout), Hp. now rewrite app_nil_r.
Qed.

(** One run, seen from any other file. *)
Lemma record_run_elsewhere secs solver_secs args (fs : Files) t i p :
  String.eqb p (args_outcsv args) = false ->
  String.eqb p solver_outcsv = false ->
  record_run secs solver_secs args fs t i p = fs p.
Proof.
  destruct t as [[h w] d]. intros Hout Hs.
  unfold record_run, append_csv_at, write.
  destruct (args_solve args); now rewrite ?Hs, ?Hout.
Qed.

Lemma record_runs_at secs solver_secs args t (l : list Z) :
  forall (fs : Files) p c,
    fs p = Some c ->
    fold_left (fun fs i => record_run secs solver_secs args fs t i) l fs p
    = Some (c ++ flat_map (rows_of_run secs solver_secs args p t) l)%list.
Proof.
  induction l as [|i l IH]; intros fs p c Hp; simpl.
  - now rewrite app_nil_r.
  - erewrite IH by (apply record_run_at; exact Hp).
    now rewrite <- app_assoc.
Qed.

Lemma record_runs_elsewhere secs solver_secs args t (l : list Z) :
  forall (fs : Files) p,
    String.eqb p (args_outcsv args) = false ->
    String.eqb p solver_outcsv = false ->
    fold_left (fun fs i => record_run secs solver_secs args fs t i) l fs p
    = fs p.
Proof.
  induction l as [|i l IH]; intros fs p Hout Hs; simpl; [reflexivity|].
  rewrite IH by assumption. now apply record_run_elsewhere.
Qed.

Lemma record_triples_at secs solver_secs args (l : list Z)
    (triples : list Triple) :
  forall (fs : Files) p c,
    fs p = Some c ->
    fold_left
      (fun fs t =>
         fold_left (fun fs i => record_run secs solver_secs args fs t i) l fs)
      triples fs p
    = Some (c ++ flat_map
                   (fun t => flat_map (rows_of_run secs solver_secs args p t) l)
                   triples)%list.
Proof.
  induction triples as [|t triples IH]; intros fs p c Hp; simpl.
  - now rewrite app_nil_r.
  - erewrite IH by (apply record_runs_at; exact Hp).
    now rewrite <- app_assoc.
Qed.

Lemma record_triples_elsewhere secs solver_secs args (l : list Z)
    (triples : list Triple) :
  forall (fs : Files) p,
    String.eqb p (args_outcsv args) = false ->
    String.eqb p solver_outcsv = false ->
    fold_left
      (fun fs t =>
         fold_left (fun fs i => record_run secs solver_secs args fs t i) l fs)
      triples fs p
    = fs p.
Proof.
  induction triples as [|t triples IH]; intros fs p Hout Hs; simpl;
    [reflexivity|].
  rewrite IH by assumption. now apply record_runs_elsewhere.
Qed.

(** The two [init_csv] calls of [main], seen from one of the two files and
    from any other. *)
Lemma init_both_at (fs : Files) (out p : string) :
  String.eqb p out || String.eqb p solver_outcsv = true ->
  init_csv_at (init_csv_at fs out) solver_outcsv p = init_csv (fs p).
Proof.
  unfold init_csv_at, write. intros Htouched.
  destruct (String.eqb_spec p solver_outcsv) as [Hs|Hs].
  - subst p. destruct (String.eqb_spec solver_outcsv out) as [Ho|Ho].
    + rewrite <- Ho. now destruct (fs solver_outcsv).
    + reflexivity.
  - destruct (String.eqb_spec p out) as [Ho|Ho]; [now subst p|].
    discriminate Htouched.
Qed.

Lemma init_both_elsewhere (fs : Files) (out p : string) :
  String.eqb p out || String.eqb p solver_outcsv = false ->
  init_csv_at (init_csv_at fs out) solver_outcsv p = fs p.
Proof.
  unfold init_csv_at, write. intros Htouched.
  apply orb_false_iff in Htouched. destruct Htouched as [Ho Hs].
  now rewrite Hs, Ho.
Qed.

(** X16: what [main] leaves in every file.  A file other than
    [args.outcsv] and [bench_results_solver.csv] is left as it was.  Each
    of these two keeps what it held (the header, when it did not exist)
    and gets rows after it: none unless a program or [--genpy] is given,
    else, per triple and run, one row when it is [args.outcsv] and one
    more when [--solve] is set and it is the solver's file.  So
    [args.outcsv] gets as many rows as the [total_runs] that [main]
    announces, and twice as many when [--solve] is set and [--outcsv]
    names the solver's file.  Each row is well sized and has a run index
    from 1 to [repeats]. *)
Theorem main_files_rows (secs solver_secs : Triple -> Z -> string)
    (args : Args) (fs : Files) (p : string) :
  let triples := fst (progressive_triples (args_max_dim args) (args_steps args)
                        (args_start_dim args)) in
  let after := main_files secs solver_secs args fs in
  if String.eqb p (args_outcsv args) || String.eqb p solver_outcsv then
    exists rows,
      after p = Some (opened (init_csv (fs p)) ++ rows)%list
      /\ length rows
         = (if benchmarks args
            then length triples * (Z.to_nat (args_repeats args)
                                   * rows_per_run args p)
            else 0)%nat
      /\ Forall (fun row =>
                   well_sized row
                   /\ exists i, run_of row = Some (CInt i)
                                /\ 1 <= i <= args_repeats args) rows
  else after p = fs p.
Proof.
  cbn zeta. unfold main_files.
  destruct (String.eqb p (args_outcsv args) || String.eqb p solver_outcsv)
    eqn:Htouched.
  - pose proof (init_both_at fs (args_outcsv args) p Htouched) as Hinit.
    rewrite init_csv_opened in Hinit.
    destruct (benchmarks args).
    + eexists. split; [|split].
      * apply record_triples_at. exact Hinit.
      * apply CsvFacts.flat_map_length_const. intros t.
        rewrite (CsvFacts.flat_map_length_const
                   (rows_of_run secs solver_secs args p t)
                   (n := rows_per_run args p)).
        -- now rewrite CsvFacts.runs_length.
        -- intros i. apply rows_of_run_length.
      * apply Forall_forall. intros row Hrow. apply in_flat_map in Hrow.
        destruct Hrow as [t [_ Hrow]]. apply in_flat_map in Hrow.
        destruct Hrow as [i [Hi Hrow]].
        apply rows_of_run_rows in Hrow. destruct Hrow as [Hsized Hrun].
        split; [exact Hsized|]. exists i.
        split; [exact Hrun | now apply CsvFacts.runs_In].
    + exists []. rewrite app_nil_r. split; [exact Hinit|].
      split; [reflexivity | constructor].
  - pose proof (init_both_elsewhere fs (args_outcsv args) p Htouched) as Hinit.
    apply orb_false_iff in Htouched. destruct Htouched as [Ho Hs].
    destruct (benchmarks args); [|exact Hinit].
    rewrite record_triples_elsewhere by assumption. exact Hinit.
Qed.

(** With [--solve] off, or with [args.outcsv] another file than the
    solver's, [args.outcsv] ends as [main_outcsv] says. *)
Lemma main_files_outcsv (secs solver_secs : Triple -> Z -> string)
    (args : Args) (fs : Files) :
  benchmarks args = true ->
  args_solve args && String.eqb (args_outcsv args) solver_outcsv = false ->
  main_files secs solver_secs args fs (args_outcsv args)
  = main_outcsv secs (fs (args_outcsv args))
      (fst (progressive_triples (args_max_dim args) (args_steps args)
              (args_start_dim args)))
      (args_repeats args).
Proof.
  intros Hbench Hapart. unfold main_files, main_outcsv. rewrite Hbench.
  assert (Htouched : String.eqb (args_outcsv args) (args_outcsv args)
                     || String.eqb (args_outcsv args) solver_outcsv = true).
  { now rewrite String.eqb_refl. }
  pose proof (init_both_at fs (args_outcsv args) (args_outcsv args) Htouched)
    as Hinit.
  rewrite init_csv_opened in Hinit.
  erewrite record_triples_at by exact Hinit.
  rewrite BenchmarkFacts.record_sweep_rows. f_equal. f_equal.
  apply flat_map_ext. intros [[h w] d].
  induction (runs (args_repeats args)) as [|i l IH]; [reflexivity|].
  simpl. rewrite IH. unfold rows_of_run.
  rewrite String.eqb_refl, Hapart. reflexivity.
Qed.

Example solver_rows_in_one_file :
  let args := {| args_program := None; args_max_dim := 2; args_start_dim := 2;
                 args_steps := None; args_repeats := 1;
                 args_outcsv := "bench_results_solver.csv";
                 args_genpy := true; args_solve := true |} in
  main_files (fun _ _ => "0.100000") (fun _ _ => "0.200000") args
    (fun _ => None) "bench_results_solver.csv"
  = Some [header_row;
          [CInt 2; CInt 2; CInt 2; CInt 1; CStr "0.100000"; CInt 8];
          [CInt 2; CInt 2; CInt 2; CInt 1; CStr "0.200000"; CInt 8]].
Proof. reflexivity. Qed.

End MainFacts.
